(** * A multi-page TIFF viewer: render pipeline, navigation, zoom, loupe
    and regions of interest

    Shallow embedding of the three React components of the repository,
    [ImageView], [ImageViewRef] and [ImageViewMag].  The components share
    their load/render/navigation code verbatim; it is modelled once, in
    [Viewer], over the [useState] cells and the canvas ref they all have.
    Each component then adds its own cells and handlers.

    Conventions.
    - A [useState] cell is a record field; a handler is a function from
      the state at the render that created it to the state after its
      updates are applied.
    - [renderCurrentPage] is declared [async] but contains no [await], so
      it runs to completion inside the effect that calls it; it is one
      function.  [loadTiff] awaits the network and is split at its first
      [await].
    - A thrown JavaScript value is represented by its [message].
    - The decoder library [utif] and the host (clock, [ImageData]) are
      interfaces; the components are parametric in them. *)

From Stdlib Require Import ZArith QArith Qminmax Lqa Lia List String Ascii Bool.
From Stdlib Require Import DecimalString.
From Stdlib Require PrimFloat.
From Stdlib Require Import Strings.Byte.
Import ListNotations.

Local Open Scope string_scope.
Local Open Scope Z_scope.

(** ** JavaScript values used by the components *)

Module JS.

(** Result of a call that may throw. *)
Inductive outcome (A : Type) : Type :=
| Returned (a : A)
| Thrown (message : string).
Arguments Returned {A} a.
Arguments Thrown {A} message.

(** A value that is either [undefined] ([None]) or an integer number. *)
Definition number := option Z.

(** [!v] *)
Definition falsy (v : number) : bool :=
  match v with
  | None => true
  | Some n => n =? 0
  end.

(** [v <= 0]; [undefined <= 0] is [false]. *)
Definition le_zero (v : number) : bool :=
  match v with
  | None => false
  | Some n => n <=? 0
  end.

(** Template-literal rendering [`${v}`]. *)
Definition show (v : number) : string :=
  match v with
  | None => "undefined"
  | Some n => NilZero.string_of_int (Z.to_int n)
  end.

(** [m || fallback] on strings: the empty string is falsy. *)
Definition or_else (m fallback : string) : string :=
  if String.eqb m "" then fallback else m.

(** Conversion of a value assigned to a canvas dimension;
    [undefined] converts to 0. *)
Definition to_length (v : number) : Z :=
  match v with
  | None => 0
  | Some n => n
  end.

(** Truthiness of a string that may be [null]: in [{error && ...}] and
    [loading || error ? ... : ...] a null and an empty message are
    falsy. *)
Definition truthy (m : option string) : bool :=
  match m with
  | None => false
  | Some text => negb (String.eqb text "")
  end.

End JS.
Import JS.

(** ** The decoder library boundary (utif.d.ts) *)

Module UTIF.

(** A metadata entry [ifd.tNNN]: missing, a number, or an array of
    numbers. *)
Inductive tag : Type :=
| Absent
| Scalar (n : Z)
| Sequence (ns : list Z).

Record IFD : Type := {
  width : number;
  height : number;
  data : list byte;
  t256 : tag;
  t257 : tag
}.

(** [decodeImage] fills its argument in place: the returned descriptor
    is the argument after the call.  What a call that throws has
    written to its argument before throwing is not modelled.  [toRGBA8]
    is typed to return a [Uint8Array]; the caller also tests it for
    absence. *)
Class Library : Type := {
  decode : list byte -> outcome (list IFD);
  decodeImage : list byte -> IFD -> outcome IFD;
  toRGBA8 : IFD -> outcome (option (list byte))
}.

End UTIF.

(** ** The drawing surface *)

Module Canvas.

Record t : Type := {
  width : Z;
  height : Z;
  pixels : list byte;      (* RGBA bitmap, row major *)
  context2d : bool         (* does getContext('2d') return a context? *)
}.

Definition blank (w h : Z) : list byte :=
  repeat x00 (Z.to_nat (w * h * 4)).

(** [canvas.width = w]: assigning a dimension resets the bitmap to
    transparent black, also when the value does not change. *)
Definition set_width (c : t) (w : Z) : t :=
  {| width := w; height := height c;
     pixels := blank w (height c); context2d := context2d c |}.

Definition set_height (c : t) (h : Z) : t :=
  {| width := width c; height := h;
     pixels := blank (width c) h; context2d := context2d c |}.

(** [ctx.putImageData(imageData, 0, 0)] with an image of the size of
    the canvas. *)
Definition putImageData (c : t) (image : list byte) : t :=
  {| width := width c; height := height c;
     pixels := image; context2d := context2d c |}.

End Canvas.

(** ** The host: messages of the exceptions it raises *)

Class Host : Type := {
  (* new ImageData(array, w, h) when the array length is not 4*w*h *)
  imageDataMessage : string;
  (* typedArray.set(source) when the source is longer than the target *)
  setMessage : string;
  (* a library call on undefined *)
  typeErrorMessage : string
}.

(** How a component turns the RGBA bytes into an [ImageData]. *)
Variant blit : Type :=
| ImageDataConstructor   (* ImageView, ImageViewMag *)
| CreateImageDataSet.    (* ImageViewRef *)

(** ** Code shared by the three components *)

Module Viewer.

Record t : Type := {
  loading : bool;
  error : option string;
  renderTime : option string;
  currentPage : Z;
  totalPages : Z;
  tiffData : option (list byte);
  tiffPages : list UTIF.IFD;
  canvasRef : option Canvas.t
}.

(** Initial values of the cells; the canvas is mounted with the
    default size of an HTML canvas. *)
Definition defaultCanvas : Canvas.t :=
  {| Canvas.width := 300; Canvas.height := 150;
     Canvas.pixels := Canvas.blank 300 150; Canvas.context2d := true |}.

Definition initial : t :=
  {| loading := true; error := None; renderTime := None;
     currentPage := 0; totalPages := 0;
     tiffData := None; tiffPages := []; canvasRef := Some defaultCanvas |}.

Definition setLoading (b : bool) (v : t) : t :=
  {| loading := b; error := error v; renderTime := renderTime v;
     currentPage := currentPage v; totalPages := totalPages v;
     tiffData := tiffData v; tiffPages := tiffPages v;
     canvasRef := canvasRef v |}.

Definition setError (e : option string) (v : t) : t :=
  {| loading := loading v; error := e; renderTime := renderTime v;
     currentPage := currentPage v; totalPages := totalPages v;
     tiffData := tiffData v; tiffPages := tiffPages v;
     canvasRef := canvasRef v |}.

Definition setRenderTime (r : string) (v : t) : t :=
  {| loading := loading v; error := error v; renderTime := Some r;
     currentPage := currentPage v; totalPages := totalPages v;
     tiffData := tiffData v; tiffPages := tiffPages v;
     canvasRef := canvasRef v |}.

Definition setCurrentPage (f : Z -> Z) (v : t) : t :=
  {| loading := loading v; error := error v; renderTime := renderTime v;
     currentPage := f (currentPage v); totalPages := totalPages v;
     tiffData := tiffData v; tiffPages := tiffPages v;
     canvasRef := canvasRef v |}.

Definition setTotalPages (n : Z) (v : t) : t :=
  {| loading := loading v; error := error v; renderTime := renderTime v;
     currentPage := currentPage v; totalPages := n;
     tiffData := tiffData v; tiffPages := tiffPages v;
     canvasRef := canvasRef v |}.

Definition setTiffData (b : list byte) (v : t) : t :=
  {| loading := loading v; error := error v; renderTime := renderTime v;
     currentPage := currentPage v; totalPages := totalPages v;
     tiffData := Some b; tiffPages := tiffPages v;
     canvasRef := canvasRef v |}.

Definition setTiffPages (p : list UTIF.IFD) (v : t) : t :=
  {| loading := loading v; error := error v; renderTime := renderTime v;
     currentPage := currentPage v; totalPages := totalPages v;
     tiffData := tiffData v; tiffPages := p;
     canvasRef := canvasRef v |}.

(** Objects mutated in place during a render: the page descriptors
    ([decodeImage] writes into the array element) and the canvas. *)
Definition withObjects (p : list UTIF.IFD) (c : option Canvas.t) (v : t) : t :=
  {| loading := loading v; error := error v; renderTime := renderTime v;
     currentPage := currentPage v; totalPages := totalPages v;
     tiffData := tiffData v; tiffPages := p;
     canvasRef := c |}.

(** *** Dimension resolution and validation *)

(** [t ? (Array.isArray(t) ? t[0] : t) : 0].  An array is truthy even
    when empty, and indexing an empty array gives [undefined]. *)
Definition tagValue (t : UTIF.tag) : number :=
  match t with
  | UTIF.Absent => Some 0
  | UTIF.Scalar n => if n =? 0 then Some 0 else Some n
  | UTIF.Sequence ns => nth_error ns 0
  end.

(** [let width = pageIfd.width; if (!width) width = ...] *)
Definition resolve (declared : number) (t : UTIF.tag) : number :=
  if falsy declared then tagValue t else declared.

(** [!width || !height || width <= 0 || height <= 0] *)
Definition invalidDimensions (width height : number) : bool :=
  falsy width || falsy height || le_zero width || le_zero height.

Definition invalidDimensionsPrefix : string := "Invalid image dimensions: ".

Definition invalidDimensionsMessage (width height : number) : string :=
  invalidDimensionsPrefix ++ show width ++ "x" ++ show height.

Definition invalidPixelDataMessage : string := "Invalid RGBA data generated".

(** *** The body of the [try] block

    It mutates the page array and the canvas in place, and what it has
    mutated stays mutated when it throws; these objects are threaded
    through an exception monad. *)

Record objects : Type := {
  pages : list UTIF.IFD;
  canvas : option Canvas.t
}.

Definition M (A : Type) : Type := objects -> objects * outcome A.

Definition ret {A} (a : A) : M A := fun o => (o, Returned a).

Definition throw {A} (message : string) : M A := fun o => (o, Thrown message).

Definition bind {A B} (m : M A) (k : A -> M B) : M B :=
  fun o =>
    match m o with
    | (o', Returned a) => k a o'
    | (o', Thrown message) => (o', Thrown message)
    end.

Definition call {A} (r : outcome A) : M A := fun o => (o, r).

Notation "x <- m ;; k" := (bind m (fun x => k))
  (at level 61, m at next level, right associativity).
Notation "m ;;; k" := (bind m (fun _ => k))
  (at level 61, right associativity).

Definition getCanvas : M (option Canvas.t) := fun o => (o, Returned (canvas o)).

Definition setCanvas (c : Canvas.t) : M unit :=
  fun o => ({| pages := pages o; canvas := Some c |}, Returned tt).

Fixpoint replaceNth {A} (i : nat) (a : A) (l : list A) : list A :=
  match l, i with
  | [], _ => []
  | _ :: l', O => a :: l'
  | b :: l', S i' => b :: replaceNth i' a l'
  end.

Section Pipeline.

Context {library : UTIF.Library} {host : Host}.

(** [tiffPages[currentPage]]; out of range it is [undefined] and the
    library call on it throws (never reached under the guard of the
    effect, see [pageInRange]). *)
Definition readPage (i : Z) : M UTIF.IFD :=
  fun o =>
    match nth_error (pages o) (Z.to_nat i) with
    | Some ifd => (o, Returned ifd)
    | None => (o, Thrown typeErrorMessage)
    end.

Definition writePage (i : Z) (ifd : UTIF.IFD) : M unit :=
  fun o => ({| pages := replaceNth (Z.to_nat i) ifd (pages o);
               canvas := canvas o |}, Returned tt).

(** Building the [ImageData].  Both ways raise when handed more
    bytes than [w*h*4]; shorter data has been rejected before. *)
Definition makeImageData (kind : blit) (rgbaData : list byte) (w h : Z)
  : outcome (list byte) :=
  match kind with
  | ImageDataConstructor =>
      if Z.of_nat (List.length rgbaData) =? w * h * 4
      then Returned rgbaData else Thrown imageDataMessage
  | CreateImageDataSet =>
      if Z.of_nat (List.length rgbaData) <=? w * h * 4
      then Returned (rgbaData ++ skipn (List.length rgbaData) (Canvas.blank w h))%list
      else Thrown setMessage
  end.

(** Returns the size drawn when the blit took place. *)
Definition tryBlock (kind : blit) (buffer : list byte) (page : Z)
  : M (option (Z * Z)) :=
  pageIfd <- readPage page ;;
  ifd <- call (UTIF.decodeImage buffer pageIfd) ;;
  writePage page ifd ;;;
  let width := resolve (UTIF.width ifd) (UTIF.t256 ifd) in
  let height := resolve (UTIF.height ifd) (UTIF.t257 ifd) in
  if invalidDimensions width height
  then throw (invalidDimensionsMessage width height)
  else
    rgbaData <- call (UTIF.toRGBA8 ifd) ;;
    current <- getCanvas ;;
    match current with
    | None => ret None
    | Some c0 =>
        let w := to_length width in
        let h := to_length height in
        let c := Canvas.set_height (Canvas.set_width c0 w) h in
        setCanvas c ;;;
        if Canvas.context2d c then
          match rgbaData with
          | None => throw invalidPixelDataMessage
          | Some bytes =>
              if Z.of_nat (List.length bytes) <? w * h * 4
              then throw invalidPixelDataMessage
              else
                image <- call (makeImageData kind bytes w h) ;;
                setCanvas (Canvas.putImageData c image) ;;;
                ret (Some (w, h))
          end
        else ret None
    end.

Definition renderTimeText (page : Z) (count : nat) (timeElapsed : string)
  : string :=
  "Page " ++ show (Some (page + 1)) ++ "/" ++ show (Some (Z.of_nat count))
    ++ " | Render time: " ++ timeElapsed ++ "ms".

(** [renderCurrentPage]: [timeElapsed] is the host's
    [(endTime - startTime).toFixed(2)].  The second component is the
    size drawn, for the component that records it. *)
Definition renderCurrentPage (kind : blit) (timeElapsed : string)
    (buffer : list byte) (v : t) : t * option (Z * Z) :=
  let v1 := setLoading true v in
  let '(o, r) := tryBlock kind buffer (currentPage v1)
                   {| pages := tiffPages v1; canvas := canvasRef v1 |} in
  let v2 := withObjects (pages o) (canvas o) v1 in
  let v3 := match r with
            | Returned _ => v2
            | Thrown message =>
                setError (Some (or_else message "Error rendering page")) v2
            end in
  let v4 := setRenderTime
              (renderTimeText (currentPage v) (List.length (tiffPages v)) timeElapsed)
              v3 in
  (setLoading false v4,
   match r with Returned drawn => drawn | Thrown _ => None end).

(** The effect on [[tiffData, tiffPages, currentPage]]. *)
Definition renderGuard (v : t) : bool :=
  match tiffData v with
  | None => true
  | Some _ =>
      (Z.of_nat (List.length (tiffPages v)) =? 0)
      || (currentPage v <? 0)
      || (currentPage v >=? Z.of_nat (List.length (tiffPages v)))
  end.

Definition renderEffect (kind : blit) (timeElapsed : string) (v : t)
  : t * option (Z * Z) :=
  match tiffData v with
  | None => (v, None)
  | Some buffer =>
      if renderGuard v then (v, None)
      else renderCurrentPage kind timeElapsed buffer v
  end.

(** *** Loading *)

Inductive fetched : Type :=
| Rejected (message : string)                   (* fetch rejects *)
| Response (ok : bool) (body : outcome (list byte)).

(** [loadTiff] up to its first [await]. *)
Definition loadTiffBegin (v : t) : t :=
  setError None (setLoading true v).

Definition loadTry (r : fetched) : outcome (list byte * list UTIF.IFD) :=
  match r with
  | Rejected message => Thrown message
  | Response false _ => Thrown "Failed to fetch image"
  | Response true (Thrown message) => Thrown message
  | Response true (Returned buffer) =>
      match UTIF.decode buffer with
      | Thrown message => Thrown message
      | Returned ifds =>
          if Z.of_nat (List.length ifds) =? 0
          then Thrown "No pages found in TIFF file"
          else Returned (buffer, ifds)
      end
  end.

(** [loadTiff] from the settling of the fetch on. *)
Definition loadTiffSettle (r : fetched) (v : t) : t :=
  let v1 :=
    match loadTry r with
    | Returned (buffer, ifds) =>
        setCurrentPage (fun _ => 0)
          (setTotalPages (Z.of_nat (List.length ifds))
             (setTiffPages ifds (setTiffData buffer v)))
    | Thrown message =>
        setError (Some (or_else message "Error loading TIFF")) v
    end in
  setLoading false v1.

Definition loadTiff (r : fetched) (v : t) : t :=
  loadTiffSettle r (loadTiffBegin v).

End Pipeline.

(** *** Navigation *)

Definition goToNextPage (v : t) : t :=
  if currentPage v <? totalPages v - 1
  then setCurrentPage (fun prev => prev + 1) v
  else v.

Definition goToPrevPage (v : t) : t :=
  if currentPage v >? 0
  then setCurrentPage (fun prev => prev - 1) v
  else v.

(** *** What the JSX derives from the cells *)

(** [{tiffPages.length > 1 && (...)}]: the two page buttons are rendered. *)
Definition navigationShown (v : t) : bool :=
  Z.of_nat (List.length (tiffPages v)) >? 1.

(** [disabled={currentPage === 0 || loading}] *)
Definition prevDisabled (v : t) : bool :=
  (currentPage v =? 0) || loading v.

(** [disabled={currentPage === tiffPages.length - 1 || loading}] *)
Definition nextDisabled (v : t) : bool :=
  (currentPage v =? Z.of_nat (List.length (tiffPages v)) - 1) || loading v.

(** [display: loading || error ? 'none' : 'block'] on the canvas. *)
Definition canvasDisplayed (v : t) : bool :=
  negb (loading v || truthy (error v)).

End Viewer.

(** ** Zoom (ImageView and ImageViewRef)

    The zoom level is a JavaScript number.  Every level reachable from 1
    is a multiple of 1/4 between 1/4 and 5 (see [reachable_quarters]);
    such numbers and their sums and differences with 0.25 are exact in
    binary floating point, so rational arithmetic models them. *)

Module Zoom.

Local Open Scope Q_scope.

Definition initial : Q := 1.

(** [setZoomLevel(prev => Math.min(prev + 0.25, 5))] *)
Definition zoomIn (prev : Q) : Q := Qmin (prev + 0.25) 5.

(** [setZoomLevel(prev => Math.max(prev - 0.25, 0.25))] *)
Definition zoomOut (prev : Q) : Q := Qmax (prev - 0.25) 0.25.

(** [setZoomLevel(1)] *)
Definition resetZoom (prev : Q) : Q := 1.

Variant operation : Type := ZoomIn | ZoomOut | Reset.

Definition apply (level : Q) (o : operation) : Q :=
  match o with
  | ZoomIn => zoomIn level
  | ZoomOut => zoomOut level
  | Reset => resetZoom level
  end.

Definition run (ops : list operation) (level : Q) : Q :=
  fold_left apply ops level.

End Zoom.

(** ** ImageViewRef: zoom and regions of interest *)

Module ImageViewRef.

Record point : Type := { x : Z; y : Z }.

Record rectangle : Type := {
  id : Z;
  topLeft : point;
  bottomRight : point
}.

Record t : Type := {
  viewer : Viewer.t;
  canvasDimensions : Z * Z;
  rectangleCoordinates : list rectangle;
  zoomLevel : Q;
  focusedInput : option nat      (* which of inputRefs has the focus *)
}.

Definition initial : t :=
  {| viewer := Viewer.initial;
     canvasDimensions := (0, 0);
     rectangleCoordinates :=
       [ {| id := 1; topLeft := {| x := 50; y := 50 |};
            bottomRight := {| x := 150; y := 150 |} |};
         {| id := 2; topLeft := {| x := 200; y := 50 |};
            bottomRight := {| x := 300; y := 150 |} |};
         {| id := 3; topLeft := {| x := 50; y := 200 |};
            bottomRight := {| x := 150; y := 300 |} |};
         {| id := 4; topLeft := {| x := 200; y := 200 |};
            bottomRight := {| x := 300; y := 300 |} |} ];
     zoomLevel := Zoom.initial;
     focusedInput := None |}.

Definition withViewer (f : Viewer.t -> Viewer.t) (s : t) : t :=
  {| viewer := f (viewer s);
     canvasDimensions := canvasDimensions s;
     rectangleCoordinates := rectangleCoordinates s;
     zoomLevel := zoomLevel s;
     focusedInput := focusedInput s |}.

Definition setZoomLevel (f : Q -> Q) (s : t) : t :=
  {| viewer := viewer s;
     canvasDimensions := canvasDimensions s;
     rectangleCoordinates := rectangleCoordinates s;
     zoomLevel := f (zoomLevel s);
     focusedInput := focusedInput s |}.

(** The rendered [<rect>] of a region. *)
Definition rectWidth (r : rectangle) : Z := x (bottomRight r) - x (topLeft r).
Definition rectHeight (r : rectangle) : Z := y (bottomRight r) - y (topLeft r).

(** Is the page pixel [(px, py)] inside the region, borders included? *)
Definition covers (r : rectangle) (px py : Z) : Prop :=
  x (topLeft r) <= px <= x (bottomRight r)
  /\ y (topLeft r) <= py <= y (bottomRight r).

(** The four [inputRefs] are attached to mounted inputs. *)
Definition inputRefs : nat := 4.

(** [if (inputRefs[index] && inputRefs[index].current) ... .focus()] *)
Definition handleRectangleClick (index : nat) (s : t) : t :=
  if (index <? inputRefs)%nat
  then {| viewer := viewer s;
          canvasDimensions := canvasDimensions s;
          rectangleCoordinates := rectangleCoordinates s;
          zoomLevel := zoomLevel s;
          focusedInput := Some index |}
  else s.

Section Component.

Context {library : UTIF.Library} {host : Host}.

(** The render effect of this component also records the size drawn
    ([setCanvasDimensions], after [putImageData]). *)
Definition renderEffect (timeElapsed : string) (s : t) : t :=
  let '(v, drawn) := Viewer.renderEffect CreateImageDataSet timeElapsed (viewer s) in
  {| viewer := v;
     canvasDimensions :=
       match drawn with
       | Some size => size
       | None => canvasDimensions s
       end;
     rectangleCoordinates := rectangleCoordinates s;
     zoomLevel := zoomLevel s;
     focusedInput := focusedInput s |}.

Inductive event : Type :=
| LoadBegin
| LoadSettle (r : Viewer.fetched)
| RenderEffect (timeElapsed : string)
| NextPage
| PrevPage
| ZoomIn
| ZoomOut
| ResetZoom
| RectangleClick (index : nat).

Definition step (s : t) (e : event) : t :=
  match e with
  | LoadBegin => withViewer Viewer.loadTiffBegin s
  | LoadSettle r => withViewer (Viewer.loadTiffSettle r) s
  | RenderEffect timeElapsed => renderEffect timeElapsed s
  | NextPage => withViewer Viewer.goToNextPage s
  | PrevPage => withViewer Viewer.goToPrevPage s
  | ZoomIn => setZoomLevel Zoom.zoomIn s
  | ZoomOut => setZoomLevel Zoom.zoomOut s
  | ResetZoom => setZoomLevel Zoom.resetZoom s
  | RectangleClick index => handleRectangleClick index s
  end.

Definition run (events : list event) (s : t) : t :=
  fold_left step events s.

End Component.

(** [disabled={loading || zoomLevel >= 5}] *)
Definition zoomInDisabled (s : t) : bool :=
  Viewer.loading (viewer s) || Qle_bool 5 (zoomLevel s).

(** [disabled={loading || zoomLevel <= 0.25}] *)
Definition zoomOutDisabled (s : t) : bool :=
  Viewer.loading (viewer s) || Qle_bool (zoomLevel s) 0.25.

(** [disabled={loading || zoomLevel === 1}] *)
Definition resetDisabled (s : t) : bool :=
  Viewer.loading (viewer s) || Qeq_bool (zoomLevel s) 1.

(** [{!loading && !error && tiffPages.length > 0 && (<svg ...>)}] *)
Definition overlayShown (s : t) : bool :=
  negb (Viewer.loading (viewer s))
  && negb (truthy (Viewer.error (viewer s)))
  && (Z.of_nat (List.length (Viewer.tiffPages (viewer s))) >? 0).

End ImageViewRef.

(** ** ImageViewMag: the magnifying loupe

    Pointer coordinates, bounding rectangles and scroll offsets are
    fractional CSS pixels; they are rationals. *)

Module Loupe.

Local Open Scope Q_scope.

(** What has been painted on the loupe canvas since it was last
    cleared, in paint order.  [DrawImage] copies from the main canvas
    as it is at the time of the call. *)
Inductive command : Type :=
| DrawImage (sx sy sw sh dx dy dw dh : Q)
| Stroke (style : string) (lineWidth : Q) (x0 y0 x1 y1 : Q).

Record t : Type := {
  width : Z;
  height : Z;
  context2d : bool;
  content : list command
}.

(** [<canvas ref={loupeCanvasRef} width={200} height={200} />] *)
Definition mounted : t :=
  {| width := 200; height := 200; context2d := true; content := [] |}.

Definition paint (l : t) (commands : list command) : t :=
  {| width := width l; height := height l; context2d := context2d l;
     content := commands |}.

End Loupe.

Module ImageViewMag.

Local Open Scope Q_scope.

Record t : Type := {
  viewer : Viewer.t;
  loupeCanvasRef : option Loupe.t;
  showMagnifier : bool;
  mousePos : Q * Q;
  zoomActive : bool
}.

Definition initial : t :=
  {| viewer := Viewer.initial;
     loupeCanvasRef := None;
     showMagnifier := false;
     mousePos := (0, 0);
     zoomActive := false |}.

Definition withViewer (f : Viewer.t -> Viewer.t) (s : t) : t :=
  {| viewer := f (viewer s);
     loupeCanvasRef := loupeCanvasRef s;
     showMagnifier := showMagnifier s;
     mousePos := mousePos s;
     zoomActive := zoomActive s |}.

Definition setShowMagnifier (b : bool) (s : t) : t :=
  {| viewer := viewer s;
     loupeCanvasRef := loupeCanvasRef s;
     showMagnifier := b;
     mousePos := mousePos s;
     zoomActive := zoomActive s |}.

Definition setZoomActive (b : bool) (s : t) : t :=
  {| viewer := viewer s;
     loupeCanvasRef := loupeCanvasRef s;
     showMagnifier := showMagnifier s;
     mousePos := mousePos s;
     zoomActive := b |}.

Definition setMousePos (p : Q * Q) (s : t) : t :=
  {| viewer := viewer s;
     loupeCanvasRef := loupeCanvasRef s;
     showMagnifier := showMagnifier s;
     mousePos := p;
     zoomActive := zoomActive s |}.

Definition setLoupe (l : option Loupe.t) (s : t) : t :=
  {| viewer := viewer s;
     loupeCanvasRef := l;
     showMagnifier := showMagnifier s;
     mousePos := mousePos s;
     zoomActive := zoomActive s |}.

(** [{showMagnifier && zoomActive && (<div ...>)}] *)
Definition loupeVisible (s : t) : bool := showMagnifier s && zoomActive s.

(** The commit after a state update: the loupe canvas is mounted
    while the loupe is rendered and its ref is null otherwise. *)
Definition commit (s : t) : t :=
  if loupeVisible s then
    match loupeCanvasRef s with
    | Some _ => s
    | None => setLoupe (Some Loupe.mounted) s
    end
  else setLoupe None s.

(** *** [updateMagnifier] *)

Definition sourceDim : Q := 50.
Definition zoomFactor : Z := 4.

(** The source rectangle [(sx, sy, sw, sh)] handed to [drawImage]. *)
Definition sourceRegion (x y : Q) (mainWidth mainHeight : Z) : Q * Q * Q * Q :=
  (Qmax 0 (Qmin (x - sourceDim / 2) (inject_Z mainWidth - sourceDim)),
   Qmax 0 (Qmin (y - sourceDim / 2) (inject_Z mainHeight - sourceDim)),
   sourceDim, sourceDim).

(** [for (let i = 0; i <= limit; i += zoomFactor)] *)
Definition gridSteps (limit : Z) : list Q :=
  map (fun k => inject_Z (Z.of_nat k * zoomFactor))
      (seq 0 (if (limit <? 0)%Z then 0 else S (Z.to_nat (limit / zoomFactor)))).

Definition gridStyle : string := "rgba(150, 150, 150, 0.5)".
Definition crosshairStyle : string := "rgba(255, 0, 0, 0.7)".

Definition loupeCommands (x y : Q) (main : Canvas.t) (l : Loupe.t)
  : list Loupe.command :=
  let w := inject_Z (Loupe.width l) in
  let h := inject_Z (Loupe.height l) in
  let '(sx, sy, sw, sh) := sourceRegion x y (Canvas.width main) (Canvas.height main) in
  (Loupe.DrawImage sx sy sw sh 0 0 w h
    :: map (fun i => Loupe.Stroke gridStyle 0.5 0 i w i) (gridSteps (Loupe.height l))
    ++ map (fun i => Loupe.Stroke gridStyle 0.5 i 0 i h) (gridSteps (Loupe.width l))
    ++ [ Loupe.Stroke crosshairStyle 1 0 (h / 2) w (h / 2);
         Loupe.Stroke crosshairStyle 1 (w / 2) 0 (w / 2) h ])%list.

Definition updateMagnifier (x y : Q) (s : t) : t :=
  match Viewer.canvasRef (viewer s), loupeCanvasRef s with
  | Some main, Some l =>
      if Canvas.context2d main && Loupe.context2d l
      then setLoupe (Some (Loupe.paint l (loupeCommands x y main l))) s
      else s
  | _, _ => s
  end.

(** *** Pointer handlers *)

Definition handleMouseEnter (s : t) : t :=
  if zoomActive s then setShowMagnifier true s else s.

Definition handleMouseLeave (s : t) : t :=
  setShowMagnifier false s.

(** What [handleMouseMove] reads from the event and the layout:
    [e.clientX], [e.clientY], the canvas' bounding rectangle and the
    scroll offsets of its parent element, when it has one. *)
Record mouseMove : Type := {
  clientX : Q;
  clientY : Q;
  rectLeft : Q;
  rectTop : Q;
  rectWidth : Q;
  container : option (Q * Q)     (* scrollLeft, scrollTop *)
}.

Definition magnifierWidth : Q := 200.
Definition magnifierHeight : Q := 200.

Definition scrollLeft (e : mouseMove) : Q :=
  match container e with Some (l, _) => l | None => 0 end.

Definition scrollTop (e : mouseMove) : Q :=
  match container e with Some (_, t) => t | None => 0 end.

(** [a < b] *)
Definition less (a b : Q) : bool := negb (Qle_bool b a).

(** The position given to the loupe for a pointer at [(x, y)]
    relative to the canvas. *)
Definition placement (x y : Q) (e : mouseMove) : Q * Q :=
  let magnifierX := x - magnifierWidth / 2 in
  let magnifierY := y - magnifierHeight - 20 in
  let magnifierX :=
    if less magnifierX (scrollLeft e) then scrollLeft e else magnifierX in
  let magnifierX :=
    if less (rectWidth e + scrollLeft e) (magnifierX + magnifierWidth)
    then rectWidth e + scrollLeft e - magnifierWidth else magnifierX in
  let magnifierY :=
    if less magnifierY (scrollTop e) then y + 20 else magnifierY in
  (magnifierX, magnifierY).

Definition handleMouseMove (e : mouseMove) (s : t) : t :=
  match Viewer.canvasRef (viewer s), loupeCanvasRef s with
  | Some _, Some _ =>
      if zoomActive s then
        let x := clientX e - rectLeft e in
        let y := clientY e - rectTop e in
        updateMagnifier x y (setMousePos (placement x y e) s)
      else s
  | _, _ => s
  end.

(** [setZoomActive(prev => { const newState = !prev; if (!newState)
    setShowMagnifier(false); return newState; })] *)
Definition toggleZoom (s : t) : t :=
  let newState := negb (zoomActive s) in
  let s := if negb newState then setShowMagnifier false s else s in
  setZoomActive newState s.

Section Component.

Context {library : UTIF.Library} {host : Host}.

Definition renderEffect (timeElapsed : string) (s : t) : t :=
  withViewer
    (fun v => fst (Viewer.renderEffect ImageDataConstructor timeElapsed v)) s.

Inductive event : Type :=
| LoadBegin
| LoadSettle (r : Viewer.fetched)
| RenderEffect (timeElapsed : string)
| NextPage
| PrevPage
| MouseEnter
| MouseLeave
| MouseMove (e : mouseMove)
| ToggleZoom.

Definition handle (s : t) (e : event) : t :=
  match e with
  | LoadBegin => withViewer Viewer.loadTiffBegin s
  | LoadSettle r => withViewer (Viewer.loadTiffSettle r) s
  | RenderEffect timeElapsed => renderEffect timeElapsed s
  | NextPage => withViewer Viewer.goToNextPage s
  | PrevPage => withViewer Viewer.goToPrevPage s
  | MouseEnter => handleMouseEnter s
  | MouseLeave => handleMouseLeave s
  | MouseMove m => handleMouseMove m s
  | ToggleZoom => toggleZoom s
  end.

(** One event: its handler, then the commit of the updates. *)
Definition step (s : t) (e : event) : t := commit (handle s e).

Definition run (events : list event) (s : t) : t :=
  fold_left step events s.

End Component.

End ImageViewMag.

(** The arithmetic of [handleMouseMove] once more, in the binary64
    numbers JavaScript computes with, from the event's and the layout's
    values to the position stored in [mousePos].  On whole pixels every
    operation below is exact and gives what [ImageViewMag.placement]
    gives; on fractional values each operation rounds. *)

Module Binary64.

Import PrimFloat.
Local Open Scope float_scope.






End Binary64.

(** ** Concrete pages, library and host used to run the model *)

Module Sample.

Definition page (w h : number) (t256 t257 : UTIF.tag) (bytes : list byte)
  : UTIF.IFD :=
  {| UTIF.width := w; UTIF.height := h; UTIF.data := bytes;
     UTIF.t256 := t256; UTIF.t257 := t257 |}.

Definition pixel : list byte := [xff; x80; x00; xff].

(** A 1x1 page with its 4 bytes. *)
Definition goodPage : UTIF.IFD :=
  page (Some 1) (Some 1) (UTIF.Sequence [1]) (UTIF.Sequence [1]) pixel.

(** A 2x2 page for which only 3 bytes of RGBA data come out. *)
Definition shortPage : UTIF.IFD :=
  page (Some 2) (Some 2) (UTIF.Sequence [2]) (UTIF.Sequence [2]) [x01; x02; x03].

(** A page declaring width 0 whose width tag says 1. *)
Definition zeroWidthPage : UTIF.IFD :=
  page (Some 0) (Some 1) (UTIF.Scalar 1) UTIF.Absent pixel.

(** A page without any usable height. *)
Definition noHeightPage : UTIF.IFD :=
  page (Some 3) None (UTIF.Sequence [3]) (UTIF.Sequence []) pixel.

(** A decoder that finds two pages in any non-empty buffer, whose
    [decodeImage] leaves the descriptor as it is and whose [toRGBA8]
    hands out the descriptor's [data]. *)
Definition library : UTIF.Library :=
  {| UTIF.decode := fun buffer =>
       match buffer with
       | []%list => Thrown "Unexpected end of file"
       | _ => Returned [goodPage; shortPage]
       end;
     UTIF.decodeImage := fun _ ifd => Returned ifd;
     UTIF.toRGBA8 := fun ifd => Returned (Some (UTIF.data ifd)) |}.

Definition host : Host :=
  {| imageDataMessage := "The input data length is not equal to (4 * width * height).";
     setMessage := "offset is out of bounds";
     typeErrorMessage := "Cannot read properties of undefined" |}.

(** A 1x1 canvas showing one opaque pixel. *)
Definition canvas1x1 : Canvas.t :=
  {| Canvas.width := 1; Canvas.height := 1;
     Canvas.pixels := pixel; Canvas.context2d := true |}.

(** A loaded viewer showing page [current] of [pages]. *)
Definition loaded (pages : list UTIF.IFD) (current : Z) (c : Canvas.t)
  : Viewer.t :=
  {| Viewer.loading := false; Viewer.error := None;
     Viewer.renderTime := None;
     Viewer.currentPage := current;
     Viewer.totalPages := Z.of_nat (List.length pages);
     Viewer.tiffData := Some [x49; x49];
     Viewer.tiffPages := pages;
     Viewer.canvasRef := Some c |}.

(** Canvases of a few sizes, blank. *)
Definition blankCanvas (w h : Z) : Canvas.t :=
  {| Canvas.width := w; Canvas.height := h;
     Canvas.pixels := Canvas.blank w h; Canvas.context2d := true |}.

(** A pointer at [(x, y)] over a canvas whose bounding rectangle starts
    at (8, 8) and is [w] wide, in a container that is not scrolled. *)
Definition pointerAt (x y w : Q) : ImageViewMag.mouseMove :=
  {| ImageViewMag.clientX := x + 8; ImageViewMag.clientY := y + 8;
     ImageViewMag.rectLeft := 8; ImageViewMag.rectTop := 8;
     ImageViewMag.rectWidth := w;
     ImageViewMag.container := Some (0, 0)%Q |}.

(** The magnifier switched on and the loupe showing over canvas [c]. *)
Definition magnifying (c : Canvas.t) : ImageViewMag.t :=
  {| ImageViewMag.viewer := loaded [goodPage] 0 c;
     ImageViewMag.loupeCanvasRef := Some Loupe.mounted;
     ImageViewMag.showMagnifier := true;
     ImageViewMag.mousePos := (0, 0)%Q;
     ImageViewMag.zoomActive := true |}.

End Sample.

(** ** Vocabulary of the properties *)

(** Page count and page array stay in step. *)
Definition consistent (v : Viewer.t) : Prop :=
  Viewer.totalPages v = Z.of_nat (List.length (Viewer.tiffPages v)).

(** The value is missing or not positive. *)
Definition nonPositive (v : number) : Prop :=
  match v with
  | None => True
  | Some n => n <= 0
  end.

(** [toRGBA8] gave no data, or fewer than [w*h*4] bytes. *)
Definition shortData (rgbaData : option (list byte)) (w h : Z) : Prop :=
  match rgbaData with
  | None => True
  | Some bytes => Z.of_nat (List.length bytes) < w * h * 4
  end.

(** The error kinds of the specification, as the messages the code
    throws. *)
Definition InvalidPixelData : string := Viewer.invalidPixelDataMessage.

Definition InvalidDimensions (width height : number) : string :=
  Viewer.invalidDimensionsMessage width height.

(** Dimension resolution as the specification words it: the declared
    value whenever the descriptor has one, the tag otherwise. *)
Definition resolveWhenPresent (declared : number) (t : UTIF.tag) : number :=
  match declared with
  | Some w => Some w
  | None => Viewer.tagValue t
  end.

(** Two viewer states that differ in the page index only. *)
Definition samePageAside (v v' : Viewer.t) : Prop :=
  Viewer.loading v' = Viewer.loading v
  /\ Viewer.error v' = Viewer.error v
  /\ Viewer.renderTime v' = Viewer.renderTime v
  /\ Viewer.totalPages v' = Viewer.totalPages v
  /\ Viewer.tiffData v' = Viewer.tiffData v
  /\ Viewer.tiffPages v' = Viewer.tiffPages v
  /\ Viewer.canvasRef v' = Viewer.canvasRef v.




(** The grid lines of the loupe: the horizontal line at height [k * 4]
    across the whole width, and the vertical line at [k * 4] over the
    whole height. *)
Definition horizontalGridLine (l : Loupe.t) (k : Z) : Loupe.command :=
  Loupe.Stroke ImageViewMag.gridStyle 0.5
    0 (inject_Z (k * ImageViewMag.zoomFactor))
    (inject_Z (Loupe.width l)) (inject_Z (k * ImageViewMag.zoomFactor)).

Definition verticalGridLine (l : Loupe.t) (k : Z) : Loupe.command :=
  Loupe.Stroke ImageViewMag.gridStyle 0.5
    (inject_Z (k * ImageViewMag.zoomFactor)) 0
    (inject_Z (k * ImageViewMag.zoomFactor)) (inject_Z (Loupe.height l)).

(** The two lines of the crosshair, through the middle of the loupe. *)
Definition crosshairLines (l : Loupe.t) : list Loupe.command :=
  [ Loupe.Stroke ImageViewMag.crosshairStyle 1
      0 (inject_Z (Loupe.height l) / 2)
      (inject_Z (Loupe.width l)) (inject_Z (Loupe.height l) / 2);
    Loupe.Stroke ImageViewMag.crosshairStyle 1
      (inject_Z (Loupe.width l) / 2) 0
      (inject_Z (Loupe.width l) / 2) (inject_Z (Loupe.height l)) ]%Q.

(** A source rectangle that lies on a surface of the given size. *)
Definition withinSurface (region : Q * Q * Q * Q) (w h : Z) : Prop :=
  let '(sx, sy, sw, sh) := region in
  (0 <= sx /\ sx + sw <= inject_Z w /\ 0 <= sy /\ sy + sh <= inject_Z h)%Q.

(** The navigation state is either the one before any successful load
    (no data, no pages, index and count 0) or has data, a page array
    whose length is the count, and an index into it. *)
Definition settled (v : Viewer.t) : Prop :=
  (Viewer.tiffData v = None /\ Viewer.tiffPages v = []
   /\ Viewer.currentPage v = 0 /\ Viewer.totalPages v = 0)
  \/ ((exists buffer, Viewer.tiffData v = Some buffer)
      /\ 0 <= Viewer.currentPage v < Viewer.totalPages v
      /\ consistent v).

(** The loupe canvas as the JSX mounts it. *)
Definition loupeSized (l : Loupe.t) : Prop :=
  Loupe.width l = 200 /\ Loupe.height l = 200 /\ Loupe.context2d l = true.

(** The cells of the loupe agree with one another: the loupe is only
    asked for while the magnifier is on, and its canvas is mounted, at
    200x200 with a context, exactly while the loupe is rendered. *)
Definition loupeCoherent (s : ImageViewMag.t) : Prop :=
  (ImageViewMag.showMagnifier s = true -> ImageViewMag.zoomActive s = true)
  /\ (ImageViewMag.loupeVisible s = false -> ImageViewMag.loupeCanvasRef s = None)
  /\ (ImageViewMag.loupeVisible s = true ->
      exists l, ImageViewMag.loupeCanvasRef s = Some l
                /\ Loupe.width l = 200 /\ Loupe.height l = 200
                /\ Loupe.context2d l = true).

(** The error cell does not hold the empty string. *)
Definition worded (v : Viewer.t) : Prop := Viewer.error v <> Some "".

(** A paint command that stays on a loupe canvas of the given size: an
    image that fills the canvas, or a line between points of it. *)
Definition onLoupe (w h : Q) (c : Loupe.command) : Prop :=
  match c with
  | Loupe.DrawImage _ _ _ _ dx dy dw dh =>
      (dx == 0 /\ dy == 0 /\ dw == w /\ dh == h)%Q
  | Loupe.Stroke _ _ x0 y0 x1 y1 =>
      (0 <= x0 <= w /\ 0 <= x1 <= w /\ 0 <= y0 <= h /\ 0 <= y1 <= h)%Q
  end.

(** A grid coordinate: a multiple of the zoom factor between 0 and the
    limit. *)
Definition gridAligned (limit : Z) (i : Q) : Prop :=
  exists k : Z, 0 <= k /\ k * ImageViewMag.zoomFactor <= limit
                /\ i = inject_Z (k * ImageViewMag.zoomFactor).

(** A zoom level that is a whole number of quarters between 1 and 20. *)
Definition quarters (z : Q) : Prop :=
  exists k : Z, 1 <= k <= 20 /\ (z == inject_Z k / 4)%Q.

(** * Properties *)

(** ** The render pipeline *)

Section RenderFacts.

Context {library : UTIF.Library} {host : Host}.

Import Viewer.

Lemma replaceNth_length {A} (i : nat) (a : A) (l : list A) :
  List.length (replaceNth i a l) = List.length l.
Proof.
  revert i; induction l as [|b l IH]; intros [|i]; simpl; auto.
Qed.

(** Unfolds the monadic steps of the [try] block. *)
Ltac run_try :=
  unfold tryBlock, bind, readPage, writePage, call, throw, ret,
    getCanvas, setCanvas; simpl.

(** Case split on an innermost scrutinee of the goal. *)
Ltac split_match :=
  match goal with
  | |- context [match ?x with _ => _ end] =>
      lazymatch x with
      | context [match _ with _ => _ end] => fail
      | _ => destruct x eqn:?
      end
  end; simpl.

(** Whatever happens in the [try] block, the page array keeps its
    length: [decodeImage] only overwrites one element. *)
Lemma tryBlock_pages_length kind buffer page o :
  List.length (pages (fst (tryBlock kind buffer page o))) = List.length (pages o).
Proof.
  run_try.
  repeat split_match; simpl; rewrite ?replaceNth_length; reflexivity.
Qed.

(** The [finally] block: fields it sets, whatever the [try] did. *)
Lemma renderCurrentPage_finally kind timeElapsed buffer v :
  let v' := fst (renderCurrentPage kind timeElapsed buffer v) in
  loading v' = false
  /\ renderTime v' =
       Some (renderTimeText (currentPage v) (List.length (tiffPages v)) timeElapsed)
  /\ currentPage v' = currentPage v
  /\ totalPages v' = totalPages v
  /\ tiffData v' = tiffData v
  /\ List.length (tiffPages v') = List.length (tiffPages v).
Proof.
  unfold renderCurrentPage; simpl.
  pose proof (tryBlock_pages_length kind buffer (currentPage v)
                {| pages := tiffPages v; canvas := canvasRef v |}) as Hlen.
  destruct (tryBlock kind buffer (currentPage v) _) as [o [drawn|message]];
    simpl in *; auto 10.
Qed.

(** A render never clears the error cell: it keeps it when the [try]
    block returns and overwrites it with a message when it throws. *)
Lemma renderCurrentPage_error kind timeElapsed buffer v :
  let o := {| pages := tiffPages v; canvas := canvasRef v |} in
  error (fst (renderCurrentPage kind timeElapsed buffer v)) =
    match snd (tryBlock kind buffer (currentPage v) o) with
    | Returned _ => error v
    | Thrown message => Some (or_else message "Error rendering page")
    end.
Proof.
  unfold renderCurrentPage; simpl.
  destruct (tryBlock kind buffer (currentPage v) _) as [o [drawn|message]];
    reflexivity.
Qed.

(** Under the guard of the effect the current page exists. *)
Lemma pageInRange (v : t) :
  renderGuard v = false ->
  exists ifd, nth_error (tiffPages v) (Z.to_nat (currentPage v)) = Some ifd.
Proof.
  unfold renderGuard. destruct (tiffData v); [|discriminate].
  intros H. apply orb_false_iff in H as [H H3].
  apply orb_false_iff in H as [_ H2].
  destruct (nth_error (tiffPages v) (Z.to_nat (currentPage v))) eqn:E; eauto.
  apply nth_error_None in E. lia.
Qed.

Lemma renderEffect_error kind timeElapsed v :
  error v <> None ->
  error (fst (renderEffect kind timeElapsed v)) <> None.
Proof.
  unfold renderEffect. intros H.
  destruct (tiffData v); [|exact H].
  destruct (renderGuard v); [exact H|].
  rewrite renderCurrentPage_error.
  destruct (snd _); [exact H|discriminate].
Qed.

Lemma renderEffect_consistent kind timeElapsed v :
  consistent v -> consistent (fst (renderEffect kind timeElapsed v)).
Proof.
  unfold renderEffect, consistent. intros H.
  destruct (tiffData v); [|exact H].
  destruct (renderGuard v); [exact H|].
  destruct (renderCurrentPage_finally kind timeElapsed l v)
    as (_ & _ & _ & Ht & _ & Hl).
  simpl in *. rewrite Ht, Hl. exact H.
Qed.

Lemma loadTiffSettle_consistent r v :
  consistent v -> consistent (loadTiffSettle r v).
Proof.
  unfold loadTiffSettle, consistent. intros H.
  destruct (loadTry r) as [[buffer ifds]|message]; simpl; auto.
Qed.

Lemma goToNextPage_consistent v : consistent v -> consistent (goToNextPage v).
Proof.
  unfold goToNextPage, consistent. destruct (_ <? _); auto.
Qed.

Lemma goToPrevPage_consistent v : consistent v -> consistent (goToPrevPage v).
Proof.
  unfold goToPrevPage, consistent. destruct (_ >? _); auto.
Qed.

Lemma invalidDimensions_iff width height :
  invalidDimensions width height = true
  <-> nonPositive width \/ nonPositive height.
Proof.
  destruct width as [w|], height as [h|]; unfold invalidDimensions; simpl;
    rewrite ?orb_true_iff, ?Z.eqb_eq, ?Z.leb_le;
    intuition (try lia; try discriminate).
Qed.

(** A render whose resolved dimensions are rejected, in full: the error
    cell, the timing text and the loading flag are written, the decoded
    descriptor is in the page array, and nothing else has changed. *)
Lemma renderCurrentPage_invalid_dimensions kind timeElapsed buffer v pageIfd ifd :
  nth_error (tiffPages v) (Z.to_nat (currentPage v)) = Some pageIfd ->
  UTIF.decodeImage buffer pageIfd = Returned ifd ->
  let width := resolve (UTIF.width ifd) (UTIF.t256 ifd) in
  let height := resolve (UTIF.height ifd) (UTIF.t257 ifd) in
  invalidDimensions width height = true ->
  renderCurrentPage kind timeElapsed buffer v =
  ({| loading := false;
      error := Some (invalidDimensionsMessage width height);
      renderTime :=
        Some (renderTimeText (currentPage v) (List.length (tiffPages v)) timeElapsed);
      currentPage := currentPage v;
      totalPages := totalPages v;
      tiffData := tiffData v;
      tiffPages := replaceNth (Z.to_nat (currentPage v)) ifd (tiffPages v);
      canvasRef := canvasRef v |}, None).
Proof.
  intros Hpage Hdecode width height Hbad.
  unfold renderCurrentPage. run_try.
  rewrite Hpage, Hdecode. simpl. fold width height. rewrite Hbad.
  reflexivity.
Qed.

End RenderFacts.

(** ** Facts about the two components' event loops *)

Section MagFacts.

Context {library : UTIF.Library} {host : Host}.

Import ImageViewMag.

Lemma mag_commit_viewer s : viewer (commit s) = viewer s.
Proof.
  unfold commit. destruct (loupeVisible s); [destruct (loupeCanvasRef s)|];
    reflexivity.
Qed.

Lemma mag_updateMagnifier_viewer x y s : viewer (updateMagnifier x y s) = viewer s.
Proof.
  unfold updateMagnifier.
  destruct (Viewer.canvasRef (viewer s)), (loupeCanvasRef s); try reflexivity.
  destruct (_ && _); reflexivity.
Qed.

Lemma mag_handleMouseMove_viewer e s : viewer (handleMouseMove e s) = viewer s.
Proof.
  unfold handleMouseMove.
  destruct (Viewer.canvasRef (viewer s)) eqn:Hc, (loupeCanvasRef s);
    try reflexivity.
  destruct (zoomActive s); [|reflexivity].
  rewrite mag_updateMagnifier_viewer. reflexivity.
Qed.

(** The handlers of the loupe leave the shared cells alone. *)
Lemma mag_pointer_viewer s e :
  match e with
  | MouseEnter | MouseLeave | MouseMove _ | ToggleZoom => viewer (step s e) = viewer s
  | _ => True
  end.
Proof.
  destruct e; try exact I; unfold step; rewrite mag_commit_viewer; simpl.
  - unfold handleMouseEnter. destruct (zoomActive s); reflexivity.
  - reflexivity.
  - apply mag_handleMouseMove_viewer.
  - unfold toggleZoom. destruct (zoomActive s); reflexivity.
Qed.

Lemma mag_step_error s e :
  e <> LoadBegin ->
  Viewer.error (viewer s) <> None ->
  Viewer.error (viewer (step s e)) <> None.
Proof.
  intros Hne Herr.
  pose proof (mag_pointer_viewer s e) as Hp.
  destruct e; try (rewrite Hp; exact Herr); try congruence;
    unfold step; rewrite mag_commit_viewer; simpl.
  - unfold Viewer.loadTiffSettle.
    destruct (Viewer.loadTry r) as [[buffer ifds]|message]; simpl;
      [exact Herr|discriminate].
  - apply renderEffect_error. exact Herr.
  - unfold Viewer.goToNextPage. destruct (_ <? _); exact Herr.
  - unfold Viewer.goToPrevPage. destruct (_ >? _); exact Herr.
Qed.

Lemma mag_run_error events : forall s,
  Forall (fun e => e <> LoadBegin) events ->
  Viewer.error (viewer s) <> None ->
  Viewer.error (viewer (run events s)) <> None.
Proof.
  induction events as [|e events IH]; intros s Hall Herr; [exact Herr|].
  inversion Hall; subst. simpl. apply IH; [assumption|].
  apply mag_step_error; assumption.
Qed.

Lemma mag_step_consistent s e :
  consistent (viewer s) -> consistent (viewer (step s e)).
Proof.
  intros H.
  pose proof (mag_pointer_viewer s e) as Hp.
  destruct e; try (rewrite Hp; exact H);
    unfold step; rewrite mag_commit_viewer; simpl.
  - exact H.
  - apply loadTiffSettle_consistent, H.
  - apply renderEffect_consistent, H.
  - apply goToNextPage_consistent, H.
  - apply goToPrevPage_consistent, H.
Qed.

Lemma mag_run_consistent events : forall s,
  consistent (viewer s) -> consistent (viewer (run events s)).
Proof.
  induction events as [|e events IH]; intros s H; [exact H|].
  simpl. apply IH, mag_step_consistent, H.
Qed.

(** While the magnifier is switched off nothing but the toggle changes
    the cells of the loupe, and the loupe canvas stays unmounted. *)
Lemma mag_step_switched_off s e :
  e <> ToggleZoom ->
  zoomActive s = false -> loupeCanvasRef s = None ->
  let s' := step s e in
  zoomActive s' = false /\ loupeCanvasRef s' = None
  /\ loupeVisible s' = false
  /\ mousePos s' = mousePos s
  /\ (showMagnifier s = false -> showMagnifier s' = false).
Proof.
  intros Hne Hz Hl.
  assert (Hcommit : forall t, zoomActive t = false ->
            zoomActive (commit t) = false /\ loupeCanvasRef (commit t) = None
            /\ loupeVisible (commit t) = false
            /\ mousePos (commit t) = mousePos t
            /\ showMagnifier (commit t) = showMagnifier t).
  { intros t Ht. unfold commit, loupeVisible. rewrite Ht, andb_false_r.
    simpl. rewrite Ht, andb_false_r. auto. }
  assert (Hmove : forall m, handleMouseMove m s = s).
  { intros m. unfold handleMouseMove. rewrite Hl.
    destruct (Viewer.canvasRef (viewer s)); reflexivity. }
  assert (Henter : handleMouseEnter s = s).
  { unfold handleMouseEnter. rewrite Hz. reflexivity. }
  destruct e; try congruence; unfold step; cbv zeta; cbn [handle];
    rewrite ?Hmove, ?Henter;
    match goal with
    | |- context [commit ?t] =>
        destruct (Hcommit t) as (H1 & H2 & H3 & H4 & H5); [exact Hz|]
    end;
    rewrite H1, H2, H3, H4, H5; simpl; auto.
Qed.

Lemma mag_run_switched_off events : forall s,
  Forall (fun e => e <> ToggleZoom) events ->
  zoomActive s = false -> showMagnifier s = false -> loupeCanvasRef s = None ->
  let s' := run events s in
  zoomActive s' = false /\ showMagnifier s' = false
  /\ loupeVisible s' = false /\ loupeCanvasRef s' = None
  /\ mousePos s' = mousePos s.
Proof.
  induction events as [|e events IH]; intros s Hall Hz Hs Hl.
  - simpl. unfold loupeVisible. rewrite Hz, Hs. auto.
  - inversion Hall as [|? ? He Hall']; subst.
    destruct (mag_step_switched_off s e He Hz Hl) as (Hz' & Hl' & _ & Hp & Hs').
    specialize (IH (step s e) Hall' Hz' (Hs' Hs) Hl').
    simpl in *. rewrite <- Hp. exact IH.
Qed.

End MagFacts.

Section RefFacts.

Context {library : UTIF.Library} {host : Host}.

Import ImageViewRef.

Lemma ref_renderEffect_viewer timeElapsed s :
  viewer (renderEffect timeElapsed s) =
  fst (Viewer.renderEffect CreateImageDataSet timeElapsed (viewer s)).
Proof.
  unfold renderEffect.
  destruct (Viewer.renderEffect _ _ _) as [v drawn]. reflexivity.
Qed.

Lemma ref_step_rectangles s e :
  rectangleCoordinates (step s e) = rectangleCoordinates s.
Proof.
  destruct e; simpl; try reflexivity.
  - unfold renderEffect.
    destruct (Viewer.renderEffect _ _ _) as [v drawn]. reflexivity.
  - unfold handleRectangleClick. destruct (_ <? _)%nat; reflexivity.
Qed.

Lemma ref_run_rectangles events : forall s,
  rectangleCoordinates (run events s) = rectangleCoordinates s.
Proof.
  induction events as [|e events IH]; intros s; [reflexivity|].
  simpl. rewrite IH. apply ref_step_rectangles.
Qed.

Lemma ref_step_error s e :
  e <> LoadBegin ->
  Viewer.error (viewer s) <> None ->
  Viewer.error (viewer (step s e)) <> None.
Proof.
  intros Hne Herr. destruct e; try congruence; simpl; try exact Herr.
  - unfold Viewer.loadTiffSettle.
    destruct (Viewer.loadTry r) as [[buffer ifds]|message]; simpl;
      [exact Herr|discriminate].
  - rewrite ref_renderEffect_viewer. apply renderEffect_error, Herr.
  - unfold Viewer.goToNextPage. destruct (_ <? _); exact Herr.
  - unfold Viewer.goToPrevPage. destruct (_ >? _); exact Herr.
  - unfold handleRectangleClick. destruct (_ <? _)%nat; exact Herr.
Qed.

Lemma ref_run_error events : forall s,
  Forall (fun e => e <> LoadBegin) events ->
  Viewer.error (viewer s) <> None ->
  Viewer.error (viewer (run events s)) <> None.
Proof.
  induction events as [|e events IH]; intros s Hall Herr; [exact Herr|].
  inversion Hall; subst. simpl. apply IH; [assumption|].
  apply ref_step_error; assumption.
Qed.

Lemma ref_step_consistent s e :
  consistent (viewer s) -> consistent (viewer (step s e)).
Proof.
  intros H. destruct e; simpl; try exact H.
  - apply loadTiffSettle_consistent, H.
  - rewrite ref_renderEffect_viewer. apply renderEffect_consistent, H.
  - apply goToNextPage_consistent, H.
  - apply goToPrevPage_consistent, H.
  - unfold handleRectangleClick. destruct (_ <? _)%nat; exact H.
Qed.

Lemma ref_run_consistent events : forall s,
  consistent (viewer s) -> consistent (viewer (run events s)).
Proof.
  induction events as [|e events IH]; intros s H; [exact H|].
  simpl. apply IH, ref_step_consistent, H.
Qed.

End RefFacts.

Section RefZoom.

Context {library : UTIF.Library} {host : Host}.

Import ImageViewRef.
Local Open Scope Q_scope.

Lemma ref_step_zoomLevel s e :
  zoomLevel (step s e) =
    match e with
    | ZoomIn => Zoom.zoomIn (zoomLevel s)
    | ZoomOut => Zoom.zoomOut (zoomLevel s)
    | ResetZoom => Zoom.resetZoom (zoomLevel s)
    | _ => zoomLevel s
    end.
Proof.
  destruct e; simpl; try reflexivity.
  - unfold renderEffect.
    destruct (Viewer.renderEffect _ _ _) as [v drawn]. reflexivity.
  - unfold handleRectangleClick. destruct (_ <? _)%nat; reflexivity.
Qed.

End RefZoom.

(** ** Zoom arithmetic *)

Section ZoomFacts.

Local Open Scope Q_scope.

(** Divisions by a literal, as multiplications [lra] can read. *)
Ltac divide_out := unfold Qdiv in *; cbn [Qinv Qnum Qden] in *.

Lemma zoomIn_range z : 0.25 <= z <= 5 -> 0.25 <= Zoom.zoomIn z <= 5.
Proof.
  intros [Hlo Hhi]. unfold Zoom.zoomIn.
  destruct (Q.min_spec (z + 0.25) 5) as [[H E]|[H E]]; rewrite E; lra.
Qed.

Lemma zoomOut_range z : 0.25 <= z <= 5 -> 0.25 <= Zoom.zoomOut z <= 5.
Proof.
  intros [Hlo Hhi]. unfold Zoom.zoomOut.
  destruct (Q.max_spec (z - 0.25) 0.25) as [[H E]|[H E]]; rewrite E; lra.
Qed.

Lemma zoom_apply_range z o : 0.25 <= z <= 5 -> 0.25 <= Zoom.apply z o <= 5.
Proof.
  destruct o; simpl.
  - apply zoomIn_range.
  - apply zoomOut_range.
  - intros _. unfold Zoom.resetZoom. lra.
Qed.

Lemma zoom_run_range ops : forall z,
  0.25 <= z <= 5 -> 0.25 <= Zoom.run ops z <= 5.
Proof.
  induction ops as [|o ops IH]; intros z Hz; [exact Hz|].
  simpl. apply IH, zoom_apply_range, Hz.
Qed.

Lemma zoom_apply_quarters z o : quarters z -> quarters (Zoom.apply z o).
Proof.
  intros (k & Hk & E). destruct o; simpl.
  - unfold Zoom.zoomIn.
    destruct (Q.min_spec (z + 0.25) 5) as [[Hlt E']|[Hle E']].
    + exists (k + 1)%Z. rewrite E', E, inject_Z_plus.
      rewrite E in Hlt. divide_out.
      assert (H : inject_Z k < inject_Z 19) by (change (inject_Z 19) with 19; lra).
      rewrite <- Zlt_Qlt in H. split; [lia|].
      change (inject_Z 1) with 1. lra.
    + exists 20%Z. split; [lia|]. rewrite E'. reflexivity.
  - unfold Zoom.zoomOut.
    destruct (Q.max_spec (z - 0.25) 0.25) as [[Hlt E']|[Hle E']].
    + exists 1%Z. split; [lia|]. rewrite E'. reflexivity.
    + exists (k - 1)%Z. rewrite E', E.
      rewrite E in Hle. divide_out.
      assert (H : inject_Z 2 <= inject_Z k) by (change (inject_Z 2) with 2; lra).
      rewrite <- Zle_Qle in H. split; [lia|].
      unfold Z.sub. rewrite inject_Z_plus.
      change (inject_Z (- (1))) with (-1). lra.
  - exists 4%Z. split; [lia|]. reflexivity.
Qed.

Lemma ref_run_zoom_range {library : UTIF.Library} {host : Host} events :
  forall s,
    0.25 <= ImageViewRef.zoomLevel s <= 5 ->
    0.25 <= ImageViewRef.zoomLevel (ImageViewRef.run events s) <= 5.
Proof.
  induction events as [|e events IH]; intros s Hs; [exact Hs|].
  simpl. apply IH. rewrite ref_step_zoomLevel.
  destruct e; try exact Hs.
  - apply zoomIn_range, Hs.
  - apply zoomOut_range, Hs.
  - unfold Zoom.resetZoom. lra.
Qed.

(** Every level reachable from the initial one is a whole number of
    quarters, hence exact as a floating-point number. *)
Lemma reachable_quarters ops : quarters (Zoom.run ops Zoom.initial).
Proof.
  assert (H : forall z, quarters z -> quarters (Zoom.run ops z)).
  { induction ops as [|o ops IH]; intros z Hz; [exact Hz|].
    simpl. apply IH, zoom_apply_quarters, Hz. }
  apply H. exists 4%Z. split; [lia|reflexivity].
Qed.

End ZoomFacts.

(** ** Loupe geometry *)

Section LoupeFacts.

Import ImageViewMag.
Local Open Scope Q_scope.

Ltac divide_out := unfold Qdiv in *; cbn [Qinv Qnum Qden] in *.



(** One clamped coordinate of the source rectangle. *)
Lemma clamp_within (p : Q) (size : Z) :
  (50 <= size)%Z ->
  let start := Qmax 0 (Qmin (p - sourceDim / 2) (inject_Z size - sourceDim)) in
  0 <= start /\ start + sourceDim <= inject_Z size.
Proof.
  intros Hsize. rewrite Zle_Qle in Hsize. change (inject_Z 50) with 50 in Hsize.
  unfold sourceDim. cbv zeta.
  destruct (Q.max_spec 0 (Qmin (p - 50 / 2) (inject_Z size - 50)))
    as [[Hm E]|[Hm E]]; rewrite E;
    destruct (Q.min_spec (p - 50 / 2) (inject_Z size - 50))
      as [[Hn E']|[Hn E']]; rewrite ?E' in *; divide_out; split; lra.
Qed.






End LoupeFacts.

(** * The claims *)

(** C8.  Every call of [renderCurrentPage], whether its [try] block
    returns or throws at any step, ends with the loading flag cleared
    and with the display string
    ["Page {current+1}/{total} | Render time: {ms}ms"] recorded, where
    the total is the length of the page array — which is [totalPages] in
    every state either component reaches from its initial state. *)
Theorem render_always_clears_loading :
  (forall (library : UTIF.Library) (host : Host) kind timeElapsed buffer v,
      let v' := fst (Viewer.renderCurrentPage kind timeElapsed buffer v) in
      Viewer.loading v' = false
      /\ Viewer.renderTime v' =
           Some ("Page " ++ show (Some (Viewer.currentPage v + 1)) ++ "/"
                   ++ show (Some (Z.of_nat (List.length (Viewer.tiffPages v))))
                   ++ " | Render time: " ++ timeElapsed ++ "ms"))
  /\ (forall (library : UTIF.Library) (host : Host) events,
         let v := ImageViewMag.viewer (ImageViewMag.run events ImageViewMag.initial) in
         Viewer.totalPages v = Z.of_nat (List.length (Viewer.tiffPages v)))
  /\ (forall (library : UTIF.Library) (host : Host) events,
         let v := ImageViewRef.viewer (ImageViewRef.run events ImageViewRef.initial) in
         Viewer.totalPages v = Z.of_nat (List.length (Viewer.tiffPages v))).
Proof.
  split; [|split].
  - intros library host kind timeElapsed buffer v.
    destruct (renderCurrentPage_finally kind timeElapsed buffer v)
      as (Hl & Ht & _).
    split; [exact Hl|exact Ht].
  - intros library host events.
    apply (mag_run_consistent events ImageViewMag.initial). reflexivity.
  - intros library host events.
    apply (ref_run_consistent events ImageViewRef.initial). reflexivity.
Qed.

(** C1, as the code has it.  When [toRGBA8] yields no data or fewer than
    [width*height*4] bytes for a page of valid dimensions, and a canvas
    with a 2D context is mounted, the render ends with the
    [InvalidPixelData] message in the error cell; by then the canvas has
    been resized to [width] x [height], which clears it, and none of the
    produced bytes has been drawn. *)
Theorem short_pixel_data_reported
    (library : UTIF.Library) (host : Host)
    kind timeElapsed buffer v pageIfd ifd rgbaData c :
  nth_error (Viewer.tiffPages v) (Z.to_nat (Viewer.currentPage v)) = Some pageIfd ->
  UTIF.decodeImage buffer pageIfd = Returned ifd ->
  let width := Viewer.resolve (UTIF.width ifd) (UTIF.t256 ifd) in
  let height := Viewer.resolve (UTIF.height ifd) (UTIF.t257 ifd) in
  Viewer.invalidDimensions width height = false ->
  UTIF.toRGBA8 ifd = Returned rgbaData ->
  shortData rgbaData (to_length width) (to_length height) ->
  Viewer.canvasRef v = Some c ->
  Canvas.context2d c = true ->
  let v' := fst (Viewer.renderCurrentPage kind timeElapsed buffer v) in
  Viewer.error v' = Some InvalidPixelData
  /\ Viewer.canvasRef v' =
       Some {| Canvas.width := to_length width;
               Canvas.height := to_length height;
               Canvas.pixels := Canvas.blank (to_length width) (to_length height);
               Canvas.context2d := true |}
  /\ Viewer.loading v' = false.
Proof.
  intros Hpage Hdecode width height Hdims Hrgba Hshort Hc Hctx v'.
  subst v'. unfold Viewer.renderCurrentPage, Viewer.tryBlock, Viewer.bind,
    Viewer.readPage, Viewer.writePage, Viewer.call, Viewer.getCanvas,
    Viewer.setCanvas, Viewer.throw.
  cbn [Viewer.pages Viewer.canvas Viewer.setLoading Viewer.currentPage
       Viewer.tiffPages Viewer.canvasRef].
  rewrite Hpage, Hdecode. cbn [Viewer.pages Viewer.canvas].
  fold width height. rewrite Hdims, Hrgba, Hc.
  cbn [Viewer.pages Viewer.canvas Canvas.set_width Canvas.set_height
       Canvas.context2d Canvas.width Canvas.height].
  rewrite Hctx.
  assert (Hcanvas :
    Canvas.set_height (Canvas.set_width c (to_length width)) (to_length height)
    = {| Canvas.width := to_length width;
         Canvas.height := to_length height;
         Canvas.pixels := Canvas.blank (to_length width) (to_length height);
         Canvas.context2d := true |}).
  { unfold Canvas.set_height, Canvas.set_width. simpl. rewrite Hctx.
    reflexivity. }
  destruct rgbaData as [bytes|]; simpl in Hshort.
  - apply Z.ltb_lt in Hshort. rewrite Hshort. simpl.
    rewrite Hcanvas. auto.
  - simpl. rewrite Hcanvas. auto.
Qed.

Lemma short_pixel_data_reported_witness :
  let v := Sample.loaded [Sample.shortPage] 0 Sample.canvas1x1 in
  let v' := fst (@Viewer.renderCurrentPage Sample.library Sample.host
                   ImageDataConstructor "0.10" [x49; x49] v) in
  Viewer.error v' = Some InvalidPixelData
  /\ Viewer.canvasRef v' =
       Some {| Canvas.width := 2; Canvas.height := 2;
               Canvas.pixels := Canvas.blank 2 2; Canvas.context2d := true |}
  /\ Viewer.loading v' = false.
Proof.
  apply (short_pixel_data_reported Sample.library Sample.host
           ImageDataConstructor "0.10" [x49; x49]
           (Sample.loaded [Sample.shortPage] 0 Sample.canvas1x1)
           Sample.shortPage Sample.shortPage (Some [x01; x02; x03])
           Sample.canvas1x1);
    reflexivity.
Defined.

(** C1 as stated fails: a 1x1 canvas showing a pixel, a 2x2 page whose
    RGBA data is 3 bytes long.  The error is reported, but the canvas is
    2x2 and blank afterwards. *)
Lemma short_pixel_data_resizes_surface :
  let v := Sample.loaded [Sample.shortPage] 0 Sample.canvas1x1 in
  let v' := fst (@Viewer.renderCurrentPage Sample.library Sample.host
                   ImageDataConstructor "0.10" [x49; x49] v) in
  @UTIF.toRGBA8 Sample.library Sample.shortPage = Returned (Some [x01; x02; x03])
  /\ shortData (Some [x01; x02; x03]) 2 2
  /\ Viewer.error v' = Some InvalidPixelData
  /\ Viewer.canvasRef v = Some Sample.canvas1x1
  /\ Viewer.canvasRef v' <> Viewer.canvasRef v
  /\ option_map Canvas.width (Viewer.canvasRef v') = Some 2
  /\ option_map Canvas.height (Viewer.canvasRef v') = Some 2
  /\ option_map Canvas.pixels (Viewer.canvasRef v') = Some (Canvas.blank 2 2).
Proof.
  vm_compute. repeat split; try reflexivity; discriminate.
Qed.

(** C5, as the code has it.  A declared width or height is taken when
    it is there and is not zero; a missing or zero one is replaced by
    the tag [t256] or [t257]: its first element when the tag is a
    sequence, the tag itself when it is a number.  The dimensions are
    rejected exactly when one of them is missing or not positive, and
    then the render ends with the [InvalidDimensions] message, with the
    canvas as it was and without [toRGBA8] having had any influence. *)
Theorem dimensions_resolved_then_checked :
  (forall w t, w <> 0 -> Viewer.resolve (Some w) t = Some w)
  /\ (forall t, Viewer.resolve None t = Viewer.tagValue t
                /\ Viewer.resolve (Some 0) t = Viewer.tagValue t)
  /\ (forall n ns, Viewer.tagValue (UTIF.Sequence (n :: ns)) = Some n)
  /\ (forall n, Viewer.tagValue (UTIF.Scalar n) = Some n)
  /\ (forall width height,
         Viewer.invalidDimensions width height = true
         <-> nonPositive width \/ nonPositive height)
  /\ (forall (host : Host) decode decodeImage toRGBA8 toRGBA8'
             kind timeElapsed buffer v pageIfd ifd,
         let library := {| UTIF.decode := decode;
                           UTIF.decodeImage := decodeImage;
                           UTIF.toRGBA8 := toRGBA8 |} in
         let library' := {| UTIF.decode := decode;
                            UTIF.decodeImage := decodeImage;
                            UTIF.toRGBA8 := toRGBA8' |} in
         nth_error (Viewer.tiffPages v) (Z.to_nat (Viewer.currentPage v))
           = Some pageIfd ->
         decodeImage buffer pageIfd = Returned ifd ->
         let width := Viewer.resolve (UTIF.width ifd) (UTIF.t256 ifd) in
         let height := Viewer.resolve (UTIF.height ifd) (UTIF.t257 ifd) in
         nonPositive width \/ nonPositive height ->
         let r := @Viewer.renderCurrentPage library host kind timeElapsed buffer v in
         Viewer.error (fst r) = Some (InvalidDimensions width height)
         /\ Viewer.canvasRef (fst r) = Viewer.canvasRef v
         /\ snd r = None
         /\ @Viewer.renderCurrentPage library' host kind timeElapsed buffer v = r).
Proof.
  split; [|split; [|split; [|split; [|split]]]].
  - intros w t Hw. unfold Viewer.resolve. simpl.
    destruct (Z.eqb_spec w 0); [contradiction|reflexivity].
  - intros t. split; reflexivity.
  - reflexivity.
  - intros [|n|n]; reflexivity.
  - apply invalidDimensions_iff.
  - intros host decode decodeImage toRGBA8 toRGBA8' kind timeElapsed buffer v
      pageIfd ifd library library' Hpage Hdecode width height Hbad r.
    apply invalidDimensions_iff in Hbad.
    subst r.
    rewrite (@renderCurrentPage_invalid_dimensions library host
               kind timeElapsed buffer v pageIfd ifd Hpage Hdecode Hbad).
    rewrite (@renderCurrentPage_invalid_dimensions library' host
               kind timeElapsed buffer v pageIfd ifd Hpage Hdecode Hbad).
    repeat split.
Qed.

Lemma dimensions_resolved_then_checked_witness :
  Viewer.resolve (Some 3) (UTIF.Sequence [7]) = Some 3
  /\ let v := Sample.loaded [Sample.goodPage; Sample.noHeightPage] 1 Sample.canvas1x1 in
     let r := @Viewer.renderCurrentPage Sample.library Sample.host
                CreateImageDataSet "0.10" [x49; x49] v in
     Viewer.error (fst r) = Some "Invalid image dimensions: 3xundefined"
     /\ Viewer.canvasRef (fst r) = Some Sample.canvas1x1.
Proof.
  destruct dimensions_resolved_then_checked
    as (Hdeclared & _ & _ & _ & _ & Hrender).
  split.
  - apply Hdeclared. discriminate.
  - destruct (Hrender Sample.host
                (@UTIF.decode Sample.library)
                (@UTIF.decodeImage Sample.library)
                (@UTIF.toRGBA8 Sample.library)
                (fun _ => Thrown "unused")
                CreateImageDataSet "0.10" [x49; x49]
                (Sample.loaded [Sample.goodPage; Sample.noHeightPage] 1 Sample.canvas1x1)
                Sample.noHeightPage Sample.noHeightPage
                eq_refl eq_refl (or_intror I))
      as (Herr & Hcanvas & _).
    split; [exact Herr|exact Hcanvas].
Defined.

(** C5 as stated fails on a descriptor that declares width 0 while its
    width tag says 1: the declared width is there and is not positive,
    yet the code takes the tag and the render goes through. *)
Lemma declared_zero_is_replaced :
  let ifd := Sample.zeroWidthPage in
  let v := Sample.loaded [ifd] 0 Sample.canvas1x1 in
  let r := @Viewer.renderCurrentPage Sample.library Sample.host
             ImageDataConstructor "0.10" [x49; x49] v in
  UTIF.width ifd = Some 0
  /\ resolveWhenPresent (UTIF.width ifd) (UTIF.t256 ifd) = Some 0
  /\ nonPositive (resolveWhenPresent (UTIF.width ifd) (UTIF.t256 ifd))
  /\ Viewer.resolve (UTIF.width ifd) (UTIF.t256 ifd) = Some 1
  /\ Viewer.error (fst r) = None
  /\ snd r = Some (1, 1).
Proof.
  vm_compute. repeat split; discriminate.
Qed.

(** C4.  In a state whose page index is valid, [goToNextPage] adds
    exactly 1 to the index below the last page and changes nothing on
    the last page; [goToPrevPage] subtracts exactly 1 above the first
    page and changes nothing on the first page; no other cell is
    touched, and the index stays valid. *)
Theorem navigation_keeps_index_valid (v : Viewer.t) :
  0 <= Viewer.currentPage v < Viewer.totalPages v ->
  (Viewer.currentPage v < Viewer.totalPages v - 1 ->
     Viewer.currentPage (Viewer.goToNextPage v) = Viewer.currentPage v + 1
     /\ samePageAside v (Viewer.goToNextPage v))
  /\ (Viewer.currentPage v = Viewer.totalPages v - 1 ->
        Viewer.goToNextPage v = v)
  /\ (Viewer.currentPage v > 0 ->
        Viewer.currentPage (Viewer.goToPrevPage v) = Viewer.currentPage v - 1
        /\ samePageAside v (Viewer.goToPrevPage v))
  /\ (Viewer.currentPage v = 0 -> Viewer.goToPrevPage v = v)
  /\ 0 <= Viewer.currentPage (Viewer.goToNextPage v)
       < Viewer.totalPages (Viewer.goToNextPage v)
  /\ 0 <= Viewer.currentPage (Viewer.goToPrevPage v)
       < Viewer.totalPages (Viewer.goToPrevPage v).
Proof.
  intros Hvalid. unfold Viewer.goToNextPage, Viewer.goToPrevPage, samePageAside.
  destruct (Z.ltb_spec (Viewer.currentPage v) (Viewer.totalPages v - 1));
    destruct (Z.gtb_spec (Viewer.currentPage v) 0);
    simpl; repeat split; intros; try reflexivity; try lia.
Qed.

Lemma navigation_keeps_index_valid_witness :
  let v := Sample.loaded [Sample.goodPage; Sample.goodPage] 0 Sample.canvas1x1 in
  Viewer.currentPage (Viewer.goToNextPage v) = 1
  /\ Viewer.goToPrevPage v = v
  /\ Viewer.goToNextPage (Viewer.goToNextPage v) = Viewer.goToNextPage v.
Proof.
  pose (v := Sample.loaded [Sample.goodPage; Sample.goodPage] 0 Sample.canvas1x1).
  assert (Hv : 0 <= Viewer.currentPage v < Viewer.totalPages v)
    by (simpl; lia).
  assert (Hv' : 0 <= Viewer.currentPage (Viewer.goToNextPage v)
                < Viewer.totalPages (Viewer.goToNextPage v))
    by (simpl; lia).
  destruct (navigation_keeps_index_valid v Hv) as (Hnext & _ & _ & Hfirst & _).
  destruct (navigation_keeps_index_valid (Viewer.goToNextPage v) Hv')
    as (_ & Hlast & _).
  split; [|split].
  - apply Hnext. simpl. lia.
  - apply Hfirst. reflexivity.
  - apply Hlast. reflexivity.
Defined.

(** C9.  Once the error cell holds a message, no event of either
    component other than the beginning of a load empties it: a
    failing render or load overwrites it with another message, and a
    render whose [try] block returns leaves the old message where it
    is.  Only [loadTiffBegin] sets the cell to null. *)
Theorem error_cleared_only_by_load :
  (forall (library : UTIF.Library) (host : Host) events s,
      Forall (fun e => e <> ImageViewMag.LoadBegin) events ->
      Viewer.error (ImageViewMag.viewer s) <> None ->
      Viewer.error (ImageViewMag.viewer (ImageViewMag.run events s)) <> None)
  /\ (forall (library : UTIF.Library) (host : Host) events s,
         Forall (fun e => e <> ImageViewRef.LoadBegin) events ->
         Viewer.error (ImageViewRef.viewer s) <> None ->
         Viewer.error (ImageViewRef.viewer (ImageViewRef.run events s)) <> None)
  /\ (forall (library : UTIF.Library) (host : Host) kind timeElapsed buffer v drawn,
         snd (Viewer.tryBlock kind buffer (Viewer.currentPage v)
                {| Viewer.pages := Viewer.tiffPages v;
                   Viewer.canvas := Viewer.canvasRef v |}) = Returned drawn ->
         Viewer.error (fst (Viewer.renderCurrentPage kind timeElapsed buffer v))
         = Viewer.error v)
  /\ (forall v, Viewer.error (Viewer.loadTiffBegin v) = None).
Proof.
  split; [|split; [|split]].
  - intros library host events s. apply mag_run_error.
  - intros library host events s. apply ref_run_error.
  - intros library host kind timeElapsed buffer v drawn Hok.
    rewrite renderCurrentPage_error. simpl. rewrite Hok. reflexivity.
  - reflexivity.
Qed.

Lemma error_cleared_only_by_load_witness :
  let pages := [Sample.shortPage; Sample.goodPage] in
  let s := ImageViewMag.withViewer
             (fun _ => Sample.loaded pages 0 Sample.canvas1x1)
             ImageViewMag.initial in
  let failed := @ImageViewMag.run Sample.library Sample.host
                  [ImageViewMag.RenderEffect "0.10"] s in
  let later := @ImageViewMag.run Sample.library Sample.host
                 [ImageViewMag.NextPage; ImageViewMag.RenderEffect "0.20"] failed in
  Viewer.error (ImageViewMag.viewer failed) = Some InvalidPixelData
  /\ Viewer.currentPage (ImageViewMag.viewer later) = 1
  /\ option_map Canvas.pixels (Viewer.canvasRef (ImageViewMag.viewer later))
     = Some Sample.pixel
  /\ Viewer.error (ImageViewMag.viewer later) <> None.
Proof.
  cbv zeta. split; [reflexivity|]. split; [reflexivity|]. split; [reflexivity|].
  destruct error_cleared_only_by_load as (Hmag & _).
  apply (Hmag Sample.library Sample.host).
  - repeat constructor; discriminate.
  - discriminate.
Defined.

(** C6.  Switching the magnifier off hides the loupe in that very step
    ([showMagnifier] is false and the loupe is no longer rendered), and
    from then on, whatever events arrive other than a toggle — pointer
    moves and pointer entries among them — the loupe stays hidden, its
    canvas stays unmounted so nothing is drawn on it, and its position
    is not updated. *)
Theorem toggle_off_silences_loupe
    (library : UTIF.Library) (host : Host) (s : ImageViewMag.t) events :
  ImageViewMag.zoomActive s = true ->
  Forall (fun e => e <> ImageViewMag.ToggleZoom) events ->
  let off := ImageViewMag.step s ImageViewMag.ToggleZoom in
  let later := ImageViewMag.run events off in
  (ImageViewMag.zoomActive off = false
   /\ ImageViewMag.showMagnifier off = false
   /\ ImageViewMag.loupeVisible off = false
   /\ ImageViewMag.loupeCanvasRef off = None)
  /\ (ImageViewMag.zoomActive later = false
      /\ ImageViewMag.showMagnifier later = false
      /\ ImageViewMag.loupeVisible later = false
      /\ ImageViewMag.loupeCanvasRef later = None
      /\ ImageViewMag.mousePos later = ImageViewMag.mousePos off).
Proof.
  intros Hon Hall off later.
  assert (Hoff : ImageViewMag.zoomActive off = false
                 /\ ImageViewMag.showMagnifier off = false
                 /\ ImageViewMag.loupeVisible off = false
                 /\ ImageViewMag.loupeCanvasRef off = None).
  { subst off. unfold ImageViewMag.step, ImageViewMag.handle,
      ImageViewMag.toggleZoom, ImageViewMag.commit, ImageViewMag.loupeVisible.
    rewrite Hon. simpl. auto. }
  split; [exact Hoff|].
  destruct Hoff as (Hz & Hs & _ & Hl).
  apply mag_run_switched_off; assumption.
Qed.

Lemma toggle_off_silences_loupe_witness :
  let s := Sample.magnifying (Sample.blankCanvas 256 64) in
  let off := @ImageViewMag.step Sample.library Sample.host s ImageViewMag.ToggleZoom in
  let later := @ImageViewMag.run Sample.library Sample.host
                 [ImageViewMag.MouseMove (Sample.pointerAt 120 40 256);
                  ImageViewMag.MouseEnter;
                  ImageViewMag.MouseMove (Sample.pointerAt 121 40 256)] off in
  ImageViewMag.loupeVisible s = true
  /\ ImageViewMag.loupeVisible off = false
  /\ ImageViewMag.showMagnifier later = false
  /\ ImageViewMag.loupeCanvasRef later = None.
Proof.
  cbv zeta. split; [reflexivity|].
  destruct (toggle_off_silences_loupe Sample.library Sample.host
              (Sample.magnifying (Sample.blankCanvas 256 64))
              [ImageViewMag.MouseMove (Sample.pointerAt 120 40 256);
               ImageViewMag.MouseEnter;
               ImageViewMag.MouseMove (Sample.pointerAt 121 40 256)])
    as ((_ & _ & Hhidden & _) & (_ & Hshow & _ & Hloupe & _)).
  - reflexivity.
  - repeat constructor; discriminate.
  - auto.
Defined.

(** C2, as the code has it.  On a surface at least 50 pixels wide and
    50 pixels high, for every pointer position, [updateMagnifier] copies
    from a 50x50 source rectangle that lies within
    [0, width] x [0, height]. *)
Theorem magnifier_source_within_surface
    (s : ImageViewMag.t) (x y : Q) (main : Canvas.t) (l : Loupe.t) :
  Viewer.canvasRef (ImageViewMag.viewer s) = Some main ->
  ImageViewMag.loupeCanvasRef s = Some l ->
  Canvas.context2d main = true ->
  Loupe.context2d l = true ->
  50 <= Canvas.width main ->
  50 <= Canvas.height main ->
  exists sx sy rest,
    option_map Loupe.content
      (ImageViewMag.loupeCanvasRef (ImageViewMag.updateMagnifier x y s))
    = Some (Loupe.DrawImage sx sy 50 50 0 0
              (inject_Z (Loupe.width l)) (inject_Z (Loupe.height l)) :: rest)
    /\ (sx, sy, 50%Q, 50%Q)
       = ImageViewMag.sourceRegion x y (Canvas.width main) (Canvas.height main)
    /\ withinSurface (sx, sy, 50%Q, 50%Q) (Canvas.width main) (Canvas.height main).
Proof.
  intros Hc Hl Hctx Hlctx Hw Hh.
  unfold ImageViewMag.updateMagnifier. rewrite Hc, Hl, Hctx, Hlctx.
  unfold ImageViewMag.loupeCommands, ImageViewMag.sourceRegion. simpl.
  eexists _, _, _. split; [reflexivity|]. split; [reflexivity|].
  destruct (clamp_within x (Canvas.width main) Hw) as [H1 H2].
  destruct (clamp_within y (Canvas.height main) Hh) as [H3 H4].
  unfold withinSurface. auto.
Qed.

Lemma magnifier_source_within_surface_witness :
  exists sx sy rest,
    option_map Loupe.content
      (ImageViewMag.loupeCanvasRef
         (ImageViewMag.updateMagnifier 60 3
            (Sample.magnifying (Sample.blankCanvas 64 64))))
    = Some (Loupe.DrawImage sx sy 50 50 0 0 200 200 :: rest)
    /\ (sx, sy, 50%Q, 50%Q) = ImageViewMag.sourceRegion 60 3 64 64
    /\ withinSurface (sx, sy, 50%Q, 50%Q) 64 64.
Proof.
  apply (magnifier_source_within_surface
           (Sample.magnifying (Sample.blankCanvas 64 64)) 60 3
           (Sample.blankCanvas 64 64) Loupe.mounted);
    try reflexivity; simpl; lia.
Defined.

(** C2 as stated fails on a surface smaller than the source rectangle:
    on a 30x30 canvas, with the pointer at (10, 10), the rectangle
    copied from is (0, 0, 50, 50), which ends 20 pixels beyond the right
    and the bottom edge. *)
Lemma small_surface_source_overflows :
  let main := Sample.blankCanvas 30 30 in
  let s := Sample.magnifying main in
  (0 <= 10 <= inject_Z (Canvas.width main))%Q
  /\ ImageViewMag.sourceRegion 10 10 (Canvas.width main) (Canvas.height main)
     = (0, 0, 50, 50)%Q
  /\ option_map (fun l => hd_error (Loupe.content l))
       (ImageViewMag.loupeCanvasRef (ImageViewMag.updateMagnifier 10 10 s))
     = Some (Some (Loupe.DrawImage 0 0 50 50 0 0 200 200))
  /\ ~ withinSurface (0, 0, 50, 50)%Q (Canvas.width main) (Canvas.height main).
Proof.
  cbv zeta. split; [split; discriminate|].
  split; [reflexivity|]. split; [reflexivity|].
  unfold withinSurface. simpl. intros (_ & H & _). revert H. apply Qlt_not_le.
  reflexivity.
Qed.




(** C3.  From the initial level 1, every sequence of zoomIn, zoomOut and
    reset leaves the level within [0.25, 5] — also when the component's
    other events are interleaved; [zoomIn] adds exactly 0.25 unless that
    exceeds 5, where it gives 5; [zoomOut] subtracts exactly 0.25 unless
    that goes below 0.25, where it gives 0.25; reset gives exactly 1. *)
Theorem zoom_stays_in_range :
  (forall ops, 0.25 <= Zoom.run ops Zoom.initial <= 5)%Q
  /\ (forall (library : UTIF.Library) (host : Host) events,
         0.25 <= ImageViewRef.zoomLevel
                   (ImageViewRef.run events ImageViewRef.initial) <= 5)%Q
  /\ (forall z, (z + 0.25 <= 5 -> Zoom.zoomIn z == z + 0.25)
                /\ (5 <= z + 0.25 -> Zoom.zoomIn z == 5))%Q
  /\ (forall z, (0.25 <= z - 0.25 -> Zoom.zoomOut z == z - 0.25)
                /\ (z - 0.25 <= 0.25 -> Zoom.zoomOut z == 0.25))%Q
  /\ (forall z, Zoom.resetZoom z = 1%Q).
Proof.
  split; [|split; [|split; [|split]]].
  - intros ops. apply zoom_run_range. unfold Zoom.initial. lra.
  - intros library host events.
    apply (ref_run_zoom_range events ImageViewRef.initial).
    unfold ImageViewRef.initial, Zoom.initial. simpl. lra.
  - intros z. unfold Zoom.zoomIn. split; intros H.
    + apply Q.min_l, H.
    + apply Q.min_r, H.
  - intros z. unfold Zoom.zoomOut. split; intros H.
    + apply Q.max_l, H.
    + apply Q.max_r, H.
  - reflexivity.
Qed.

Lemma zoom_stays_in_range_witness :
  (Zoom.zoomIn 1 == 1.25 /\ Zoom.zoomIn 5 == 5
   /\ Zoom.zoomOut 1 == 0.75 /\ Zoom.zoomOut 0.25 == 0.25)%Q.
Proof.
  destruct zoom_stays_in_range as (_ & _ & Hin & Hout & _).
  destruct (Hin 1%Q) as [Hadd _]. destruct (Hin 5%Q) as [_ Hcap].
  destruct (Hout 1%Q) as [Hsub _]. destruct (Hout 0.25%Q) as [_ Hfloor].
  split; [|split; [|split]].
  - rewrite Hadd; [reflexivity|discriminate].
  - apply Hcap. discriminate.
  - rewrite Hsub; [reflexivity|discriminate].
  - apply Hfloor. discriminate.
Defined.

(** C10.  The four configured regions have the ids 1 to 4 and the
    corners (50,50)-(150,150), (200,50)-(300,150), (50,200)-(150,300)
    and (200,200)-(300,300); no page pixel lies in two of them, borders
    included; each has a positive width and height; and no event of the
    component changes the list. *)
Theorem regions_fixed_and_disjoint :
  let regions := ImageViewRef.rectangleCoordinates ImageViewRef.initial in
  map (fun r => (ImageViewRef.id r,
                 (ImageViewRef.x (ImageViewRef.topLeft r),
                  ImageViewRef.y (ImageViewRef.topLeft r)),
                 (ImageViewRef.x (ImageViewRef.bottomRight r),
                  ImageViewRef.y (ImageViewRef.bottomRight r)))) regions
  = [ (1, (50, 50), (150, 150)); (2, (200, 50), (300, 150));
      (3, (50, 200), (150, 300)); (4, (200, 200), (300, 300)) ]
  /\ (forall i j ri rj px py,
         nth_error regions i = Some ri ->
         nth_error regions j = Some rj ->
         i <> j ->
         ~ (ImageViewRef.covers ri px py /\ ImageViewRef.covers rj px py))
  /\ Forall (fun r => 0 < ImageViewRef.rectWidth r
                      /\ 0 < ImageViewRef.rectHeight r) regions
  /\ (forall (library : UTIF.Library) (host : Host) events,
         ImageViewRef.rectangleCoordinates
           (ImageViewRef.run events ImageViewRef.initial) = regions)
  /\ (forall (library : UTIF.Library) (host : Host) s e,
         ImageViewRef.rectangleCoordinates (ImageViewRef.step s e)
         = ImageViewRef.rectangleCoordinates s).
Proof.
  cbv zeta. split; [reflexivity|]. split; [|split; [|split]].
  - intros i j ri rj px py Hi Hj Hne [Ci Cj].
    unfold ImageViewRef.covers in *.
    destruct i as [|[|[|[|i]]]]; simpl in Hi; try discriminate;
      destruct j as [|[|[|[|j]]]]; simpl in Hj; try discriminate;
      try congruence;
      try (destruct i; discriminate); try (destruct j; discriminate);
      inversion Hi; inversion Hj; subst; simpl in *; lia.
  - repeat constructor.
  - intros library host events. apply ref_run_rectangles.
  - intros library host s e. apply ref_step_rectangles.
Qed.

Lemma regions_fixed_and_disjoint_witness :
  ~ (ImageViewRef.covers
       {| ImageViewRef.id := 1;
          ImageViewRef.topLeft := {| ImageViewRef.x := 50; ImageViewRef.y := 50 |};
          ImageViewRef.bottomRight := {| ImageViewRef.x := 150; ImageViewRef.y := 150 |} |}
       150 150
     /\ ImageViewRef.covers
          {| ImageViewRef.id := 4;
             ImageViewRef.topLeft := {| ImageViewRef.x := 200; ImageViewRef.y := 200 |};
             ImageViewRef.bottomRight := {| ImageViewRef.x := 300; ImageViewRef.y := 300 |} |}
          150 150).
Proof.
  destruct regions_fixed_and_disjoint as (_ & Hdisjoint & _).
  apply (Hdisjoint 0%nat 3%nat); try reflexivity. discriminate.
Defined.

(** * Further properties of the components *)

(** ** Loading *)

Section LoadFacts.

Context {library : UTIF.Library} {host : Host}.

Import Viewer.

Lemma or_else_nonempty m fallback : fallback <> "" -> or_else m fallback <> "".
Proof.
  unfold or_else. destruct (String.eqb_spec m ""); auto.
Qed.

Lemma loadTiff_thrown r v message :
  loadTry r = Thrown message ->
  loadTiff r v =
    setLoading false
      (setError (Some (or_else message "Error loading TIFF")) (loadTiffBegin v)).
Proof.
  intros H. unfold loadTiff, loadTiffSettle. rewrite H. reflexivity.
Qed.

End LoadFacts.

(** X1.  A load that fails — the fetch rejects, the response is not ok,
    reading the body or decoding throws, or the decoder finds no page —
    leaves the data, the page array, the page count and the page index
    as they were, clears the loading flag and puts a non-empty message
    in the error cell: "Failed to fetch image" for a response that is
    not ok, "No pages found in TIFF file" for an empty page list. *)
Theorem failed_load_keeps_pages
    (library : UTIF.Library) (r : Viewer.fetched) (v : Viewer.t)
    (message : string) :
  Viewer.loadTry r = Thrown message ->
  let v' := Viewer.loadTiff r v in
  Viewer.loading v' = false
  /\ (exists text, Viewer.error v' = Some text /\ text <> ""
                   /\ (message <> "" -> text = message))
  /\ Viewer.tiffData v' = Viewer.tiffData v
  /\ Viewer.tiffPages v' = Viewer.tiffPages v
  /\ Viewer.totalPages v' = Viewer.totalPages v
  /\ Viewer.currentPage v' = Viewer.currentPage v
  /\ Viewer.canvasRef v' = Viewer.canvasRef v
  /\ (forall body, r = Viewer.Response false body ->
                   message = "Failed to fetch image")
  /\ (forall buffer, r = Viewer.Response true (Returned buffer) ->
                     UTIF.decode buffer = Returned [] ->
                     message = "No pages found in TIFF file").
Proof.
  intros Hthrown v'. subst v'. rewrite (loadTiff_thrown r v message Hthrown).
  simpl. split; [reflexivity|]. split.
  { exists (or_else message "Error loading TIFF"). split; [reflexivity|].
    split.
    - apply or_else_nonempty. discriminate.
    - intros Hne. unfold or_else.
      destruct (String.eqb_spec message ""); [contradiction|reflexivity]. }
  repeat (split; [reflexivity|]).
  split.
  - intros body ->. simpl in Hthrown. congruence.
  - intros buffer -> Hdecode. simpl in Hthrown. rewrite Hdecode in Hthrown.
    simpl in Hthrown. congruence.
Qed.

Lemma failed_load_keeps_pages_witness :
  let v := Sample.loaded [Sample.goodPage] 0 Sample.canvas1x1 in
  let v' := @Viewer.loadTiff Sample.library
              (Viewer.Response false (Returned [x49])) v in
  Viewer.error v' = Some "Failed to fetch image"
  /\ Viewer.tiffPages v' = [Sample.goodPage]
  /\ Viewer.loading v' = false.
Proof.
  destruct (failed_load_keeps_pages Sample.library
              (Viewer.Response false (Returned [x49]))
              (Sample.loaded [Sample.goodPage] 0 Sample.canvas1x1)
              "Failed to fetch image" eq_refl)
    as (Hl & _ & _ & Hp & _).
  cbv zeta. split; [reflexivity|]. split; [exact Hp|exact Hl].
Defined.

(** X2.  A load whose response is ok and whose buffer decodes to at
    least one page stores the buffer and the pages, sets the count to
    the number of pages and the index to 0, clears the error cell and
    the loading flag, and leaves the guard of the render effect open. *)
Theorem successful_load_starts_at_first_page
    (library : UTIF.Library) (buffer : list byte)
    (ifds : list UTIF.IFD) (v : Viewer.t) :
  UTIF.decode buffer = Returned ifds ->
  ifds <> [] ->
  let v' := Viewer.loadTiff (Viewer.Response true (Returned buffer)) v in
  Viewer.tiffData v' = Some buffer
  /\ Viewer.tiffPages v' = ifds
  /\ Viewer.totalPages v' = Z.of_nat (List.length ifds)
  /\ Viewer.currentPage v' = 0
  /\ Viewer.error v' = None
  /\ Viewer.loading v' = false
  /\ Viewer.renderGuard v' = false
  /\ Viewer.canvasRef v' = Viewer.canvasRef v.
Proof.
  intros Hdecode Hne v'. subst v'.
  unfold Viewer.loadTiff, Viewer.loadTiffSettle, Viewer.loadTry.
  rewrite Hdecode.
  destruct ifds as [|ifd ifds]; [contradiction|].
  cbn -[Z.of_nat]. repeat (split; [reflexivity|]). reflexivity.
Qed.

Lemma successful_load_starts_at_first_page_witness :
  let v' := @Viewer.loadTiff Sample.library
              (Viewer.Response true (Returned [x49; x49])) Viewer.initial in
  Viewer.totalPages v' = 2 /\ Viewer.currentPage v' = 0
  /\ Viewer.error v' = None /\ Viewer.renderGuard v' = false.
Proof.
  destruct (successful_load_starts_at_first_page Sample.library
              [x49; x49] [Sample.goodPage; Sample.shortPage] Viewer.initial
              eq_refl)
    as (_ & _ & Ht & Hc & He & _ & Hg & _).
  - discriminate.
  - cbv zeta. auto.
Defined.

(** ** The navigation invariant *)

Section SettledFacts.

Context {library : UTIF.Library} {host : Host}.

Import Viewer.

Lemma loadTiffSettle_settled r v : settled v -> settled (loadTiffSettle r v).
Proof.
  intros H. unfold loadTiffSettle, loadTry.
  destruct r as [message|[|] [buffer|message]]; try exact H.
  destruct (UTIF.decode buffer) as [ifds|message]; [|exact H].
  destruct ifds as [|ifd ifds]; [exact H|].
  change (Z.of_nat (List.length (ifd :: ifds)) =? 0) with false.
  right. cbn -[Z.of_nat]. split; [exists buffer; reflexivity|].
  unfold consistent. cbn -[Z.of_nat]. split; [|reflexivity].
  cbn [List.length]. lia.
Qed.

Lemma renderEffect_settled kind timeElapsed v :
  settled v -> settled (fst (renderEffect kind timeElapsed v)).
Proof.
  intros H. unfold renderEffect.
  destruct (tiffData v) as [buffer|] eqn:Hdata; [|exact H].
  destruct (renderGuard v); [exact H|].
  destruct (renderCurrentPage_finally kind timeElapsed buffer v)
    as (_ & _ & Hc & Ht & Hd & Hl).
  cbv zeta in *.
  destruct H as [(Hnone & _)|((b & Hb) & Hi & Hcons)]; [congruence|].
  right. unfold consistent in *. rewrite Hc, Ht, Hd, Hl. eauto.
Qed.

Lemma goToNextPage_settled v : settled v -> settled (goToNextPage v).
Proof.
  intros H. unfold goToNextPage.
  destruct (Z.ltb_spec (currentPage v) (totalPages v - 1)); [|exact H].
  destruct H as [(_ & _ & Hc & Ht)|(Hb & Hi & Hcons)]; [lia|].
  right. unfold consistent in *. simpl. split; [exact Hb|]. split; [lia|exact Hcons].
Qed.

Lemma goToPrevPage_settled v : settled v -> settled (goToPrevPage v).
Proof.
  intros H. unfold goToPrevPage.
  destruct (Z.gtb_spec (currentPage v) 0); [|exact H].
  destruct H as [(_ & _ & Hc & Ht)|(Hb & Hi & Hcons)]; [lia|].
  right. unfold consistent in *. simpl. split; [exact Hb|]. split; [lia|exact Hcons].
Qed.

Lemma mag_step_settled s e :
  settled (ImageViewMag.viewer s) ->
  settled (ImageViewMag.viewer (ImageViewMag.step s e)).
Proof.
  intros H. pose proof (mag_pointer_viewer s e) as Hp.
  destruct e; try (rewrite Hp; exact H);
    unfold ImageViewMag.step; rewrite mag_commit_viewer; simpl.
  - exact H.
  - apply loadTiffSettle_settled, H.
  - apply renderEffect_settled, H.
  - apply goToNextPage_settled, H.
  - apply goToPrevPage_settled, H.
Qed.

Lemma mag_run_settled events : forall s,
  settled (ImageViewMag.viewer s) ->
  settled (ImageViewMag.viewer (ImageViewMag.run events s)).
Proof.
  induction events as [|e events IH]; intros s H; [exact H|].
  simpl. apply IH, mag_step_settled, H.
Qed.

Lemma ref_step_settled s e :
  settled (ImageViewRef.viewer s) ->
  settled (ImageViewRef.viewer (ImageViewRef.step s e)).
Proof.
  intros H. destruct e; simpl; try exact H.
  - apply loadTiffSettle_settled, H.
  - rewrite ref_renderEffect_viewer. apply renderEffect_settled, H.
  - apply goToNextPage_settled, H.
  - apply goToPrevPage_settled, H.
  - unfold ImageViewRef.handleRectangleClick. destruct (_ <? _)%nat; exact H.
Qed.

Lemma ref_run_settled events : forall s,
  settled (ImageViewRef.viewer s) ->
  settled (ImageViewRef.viewer (ImageViewRef.run events s)).
Proof.
  induction events as [|e events IH]; intros s H; [exact H|].
  simpl. apply IH, ref_step_settled, H.
Qed.

(** With data loaded, the guard of the render effect never closes. *)
Lemma settled_guard v buffer :
  settled v -> tiffData v = Some buffer -> renderGuard v = false.
Proof.
  intros [(Hnone & _)|(_ & Hi & Hcons)] Hdata; [congruence|].
  unfold renderGuard, consistent in *. rewrite Hdata.
  rewrite !orb_false_iff, Z.eqb_neq, Z.ltb_ge, Z.geb_leb, Z.leb_gt. lia.
Qed.

End SettledFacts.

(** X3.  In every state either component reaches from its initial
    state, the navigation cells are settled: either nothing has been
    loaded (no data, no pages, index 0, count 0), or data is loaded,
    the count is the length of the page array and the index points into
    it.  So once data is loaded, the render effect always finds its
    page: its guard on the index never closes. *)
Theorem navigation_cells_stay_settled :
  (forall (library : UTIF.Library) (host : Host) events,
      let v := ImageViewMag.viewer (ImageViewMag.run events ImageViewMag.initial) in
      settled v
      /\ (Viewer.tiffData v <> None ->
          Viewer.renderGuard v = false
          /\ exists ifd, nth_error (Viewer.tiffPages v)
                           (Z.to_nat (Viewer.currentPage v)) = Some ifd))
  /\ (forall (library : UTIF.Library) (host : Host) events,
         let v := ImageViewRef.viewer (ImageViewRef.run events ImageViewRef.initial) in
         settled v
         /\ (Viewer.tiffData v <> None ->
             Viewer.renderGuard v = false
             /\ exists ifd, nth_error (Viewer.tiffPages v)
                              (Z.to_nat (Viewer.currentPage v)) = Some ifd)).
Proof.
  assert (Hopen : forall v, settled v -> Viewer.tiffData v <> None ->
            Viewer.renderGuard v = false
            /\ exists ifd, nth_error (Viewer.tiffPages v)
                             (Z.to_nat (Viewer.currentPage v)) = Some ifd).
  { intros v Hv Hdata.
    destruct (Viewer.tiffData v) as [buffer|] eqn:E; [|contradiction].
    pose proof (settled_guard v buffer Hv E) as Hg.
    split; [exact Hg|]. apply pageInRange, Hg. }
  assert (Hinit : settled Viewer.initial) by (left; repeat split).
  split; intros library host events v; subst v.
  - pose proof (mag_run_settled events ImageViewMag.initial Hinit) as H.
    split; [exact H|]. apply Hopen, H.
  - pose proof (ref_run_settled events ImageViewRef.initial Hinit) as H.
    split; [exact H|]. apply Hopen, H.
Qed.

Lemma navigation_cells_stay_settled_witness :
  let v := ImageViewMag.viewer
             (@ImageViewMag.run Sample.library Sample.host
                [ImageViewMag.LoadBegin;
                 ImageViewMag.LoadSettle (Viewer.Response true (Returned [x49]));
                 ImageViewMag.RenderEffect "0.10";
                 ImageViewMag.NextPage; ImageViewMag.NextPage]
                ImageViewMag.initial) in
  Viewer.currentPage v = 1 /\ Viewer.totalPages v = 2
  /\ Viewer.renderGuard v = false.
Proof.
  destruct navigation_cells_stay_settled as (Hmag & _).
  destruct (Hmag Sample.library Sample.host
              [ImageViewMag.LoadBegin;
               ImageViewMag.LoadSettle (Viewer.Response true (Returned [x49]));
               ImageViewMag.RenderEffect "0.10";
               ImageViewMag.NextPage; ImageViewMag.NextPage])
    as (_ & Hopen).
  cbv zeta. split; [reflexivity|]. split; [reflexivity|].
  apply Hopen. discriminate.
Defined.

(** ** Outcomes of a render *)

Section RenderCases.

Context {library : UTIF.Library} {host : Host}.

Import Viewer.

Ltac run_render :=
  unfold renderCurrentPage, tryBlock, bind, readPage, writePage, call,
    throw, ret, getCanvas, setCanvas;
  cbn [pages canvas setLoading currentPage tiffPages canvasRef].

Lemma blank_length w h : List.length (Canvas.blank w h) = Z.to_nat (w * h * 4).
Proof. apply repeat_length. Qed.

Lemma resized c w h :
  Canvas.set_height (Canvas.set_width c w) h =
    {| Canvas.width := w; Canvas.height := h;
       Canvas.pixels := Canvas.blank w h;
       Canvas.context2d := Canvas.context2d c |}.
Proof. reflexivity. Qed.

(** Data of exactly the expected length becomes the image, whichever
    way the component builds its [ImageData]. *)
Lemma makeImageData_exact kind bytes w h :
  Z.of_nat (List.length bytes) = w * h * 4 ->
  makeImageData kind bytes w h = Returned bytes.
Proof.
  intros Hlen. unfold makeImageData. destruct kind.
  - rewrite (proj2 (Z.eqb_eq _ _) Hlen). reflexivity.
  - rewrite (proj2 (Z.leb_le _ _)) by lia.
    rewrite skipn_all2 by (rewrite blank_length; lia).
    rewrite app_nil_r. reflexivity.
Qed.

Lemma makeImageData_long kind bytes w h :
  w * h * 4 < Z.of_nat (List.length bytes) ->
  makeImageData kind bytes w h =
    Thrown (match kind with
            | ImageDataConstructor => imageDataMessage
            | CreateImageDataSet => setMessage
            end).
Proof.
  intros Hlen. unfold makeImageData. destruct kind.
  - rewrite (proj2 (Z.eqb_neq _ _)) by lia. reflexivity.
  - rewrite (proj2 (Z.leb_gt _ _)) by lia. reflexivity.
Qed.

Lemma nth_error_replaceNth_other {A} (l : list A) : forall i j a,
  i <> j -> nth_error (replaceNth i a l) j = nth_error l j.
Proof.
  induction l as [|b l IH]; intros [|i] [|j] a Hne; simpl; auto; try congruence.
Qed.

(** The [try] block writes at most the current element of the page
    array. *)
Lemma tryBlock_pages kind buffer page o :
  pages (fst (tryBlock kind buffer page o)) = pages o
  \/ exists ifd,
       pages (fst (tryBlock kind buffer page o))
       = replaceNth (Z.to_nat page) ifd (pages o).
Proof.
  unfold tryBlock, bind, readPage, writePage, call, throw, ret,
    getCanvas, setCanvas; simpl.
  destruct (nth_error (pages o) (Z.to_nat page)) as [pageIfd|]; [|left; reflexivity].
  destruct (UTIF.decodeImage buffer pageIfd) as [ifd|message];
    [|left; reflexivity].
  right. exists ifd.
  repeat match goal with
         | |- context [match ?x with _ => _ end] =>
             lazymatch x with
             | context [match _ with _ => _ end] => fail
             | _ => destruct x eqn:?
             end
         end; reflexivity.
Qed.

Lemma renderCurrentPage_pages kind timeElapsed buffer v :
  tiffPages (fst (renderCurrentPage kind timeElapsed buffer v))
  = pages (fst (tryBlock kind buffer (currentPage v)
                  {| pages := tiffPages v; canvas := canvasRef v |})).
Proof.
  unfold renderCurrentPage. cbn [setLoading currentPage tiffPages canvasRef].
  destruct (tryBlock kind buffer (currentPage v) _) as [o [drawn|message]];
    reflexivity.
Qed.

Lemma renderEffect_worded kind timeElapsed v :
  worded v -> worded (fst (renderEffect kind timeElapsed v)).
Proof.
  unfold renderEffect, worded. intros H.
  destruct (tiffData v); [|exact H].
  destruct (renderGuard v); [exact H|].
  rewrite renderCurrentPage_error.
  destruct (snd _) as [drawn|message]; [exact H|].
  intros E. inversion E as [E']. revert E'. apply or_else_nonempty. discriminate.
Qed.

Lemma loadTiffSettle_worded r v : worded v -> worded (loadTiffSettle r v).
Proof.
  unfold loadTiffSettle, worded. intros H.
  destruct (loadTry r) as [[buffer ifds]|message]; simpl; [exact H|].
  intros E. inversion E as [E']. revert E'. apply or_else_nonempty. discriminate.
Qed.

Lemma truthy_worded v : worded v -> (truthy (error v) = true <-> error v <> None).
Proof.
  unfold worded, truthy. destruct (error v) as [text|].
  - intros H. destruct (String.eqb_spec text ""); [subst; contradiction|].
    split; [discriminate|reflexivity].
  - intros _. split; [discriminate|congruence].
Qed.

Lemma renderEffect_truthy kind timeElapsed v :
  truthy (error v) = true ->
  truthy (error (fst (renderEffect kind timeElapsed v))) = true.
Proof.
  unfold renderEffect. intros H.
  destruct (tiffData v); [|exact H].
  destruct (renderGuard v); [exact H|].
  rewrite renderCurrentPage_error.
  destruct (snd _) as [drawn|message]; [exact H|].
  simpl. apply negb_true_iff.
  destruct (String.eqb_spec (or_else message "Error rendering page") "") as [E|];
    [|reflexivity].
  exfalso. revert E. apply or_else_nonempty. discriminate.
Qed.

Lemma loadTiffSettle_truthy r v :
  truthy (error v) = true -> truthy (error (loadTiffSettle r v)) = true.
Proof.
  unfold loadTiffSettle. intros H.
  destruct (loadTry r) as [[buffer ifds]|message]; simpl; [exact H|].
  apply negb_true_iff.
  destruct (String.eqb_spec (or_else message "Error loading TIFF") "") as [E|];
    [|reflexivity].
  exfalso. revert E. apply or_else_nonempty. discriminate.
Qed.

End RenderCases.

(** X4.  A render of a page with valid dimensions whose RGBA data has
    exactly [width*height*4] bytes, on a canvas with a 2D context,
    leaves the canvas [width] x [height] showing exactly those bytes,
    reports that size as drawn, leaves the error cell as it was and
    clears the loading flag — with either way of building the image. *)
Theorem render_draws_the_page
    (library : UTIF.Library) (host : Host)
    kind timeElapsed buffer v pageIfd ifd bytes c :
  nth_error (Viewer.tiffPages v) (Z.to_nat (Viewer.currentPage v)) = Some pageIfd ->
  UTIF.decodeImage buffer pageIfd = Returned ifd ->
  let width := Viewer.resolve (UTIF.width ifd) (UTIF.t256 ifd) in
  let height := Viewer.resolve (UTIF.height ifd) (UTIF.t257 ifd) in
  Viewer.invalidDimensions width height = false ->
  UTIF.toRGBA8 ifd = Returned (Some bytes) ->
  Z.of_nat (List.length bytes) = to_length width * to_length height * 4 ->
  Viewer.canvasRef v = Some c ->
  Canvas.context2d c = true ->
  let r := Viewer.renderCurrentPage kind timeElapsed buffer v in
  Viewer.canvasRef (fst r) =
    Some {| Canvas.width := to_length width;
            Canvas.height := to_length height;
            Canvas.pixels := bytes;
            Canvas.context2d := true |}
  /\ snd r = Some (to_length width, to_length height)
  /\ Viewer.error (fst r) = Viewer.error v
  /\ Viewer.loading (fst r) = false.
Proof.
  intros Hpage Hdecode width height Hdims Hrgba Hlen Hc Hctx r. subst r.
  unfold Viewer.renderCurrentPage, Viewer.tryBlock, Viewer.bind,
    Viewer.readPage, Viewer.writePage, Viewer.call, Viewer.getCanvas,
    Viewer.setCanvas, Viewer.throw, Viewer.ret.
  cbn [Viewer.pages Viewer.canvas Viewer.setLoading Viewer.currentPage
       Viewer.tiffPages Viewer.canvasRef].
  rewrite Hpage, Hdecode. cbn [Viewer.pages Viewer.canvas].
  fold width height. rewrite Hdims, Hrgba, Hc.
  cbn [Viewer.pages Viewer.canvas]. rewrite resized.
  cbn [Canvas.context2d]. rewrite Hctx.
  rewrite (proj2 (Z.ltb_ge _ _)) by lia.
  rewrite (makeImageData_exact kind bytes _ _ Hlen).
  simpl. auto.
Qed.

Lemma render_draws_the_page_witness :
  let v := Sample.loaded [Sample.shortPage; Sample.goodPage] 1
             (Sample.blankCanvas 2 2) in
  let r := @Viewer.renderCurrentPage Sample.library Sample.host
             CreateImageDataSet "0.10" [x49; x49] v in
  Viewer.canvasRef (fst r) =
    Some {| Canvas.width := 1; Canvas.height := 1;
            Canvas.pixels := Sample.pixel; Canvas.context2d := true |}
  /\ snd r = Some (1, 1)
  /\ Viewer.error (fst r) = None
  /\ Viewer.loading (fst r) = false.
Proof.
  apply (render_draws_the_page Sample.library Sample.host
           CreateImageDataSet "0.10" [x49; x49]
           (Sample.loaded [Sample.shortPage; Sample.goodPage] 1
              (Sample.blankCanvas 2 2))
           Sample.goodPage Sample.goodPage Sample.pixel
           (Sample.blankCanvas 2 2));
    reflexivity.
Defined.

(** X5.  RGBA data longer than [width*height*4] passes the length check
    of the render, which only rejects shorter data, but building the
    [ImageData] from it throws in the host: the render ends with the
    host's message in the error cell ("Error rendering page" when that
    message is empty), nothing drawn, and the canvas resized and blank. *)
Theorem surplus_pixel_data_fails_in_the_host
    (library : UTIF.Library) (host : Host)
    kind timeElapsed buffer v pageIfd ifd bytes c :
  nth_error (Viewer.tiffPages v) (Z.to_nat (Viewer.currentPage v)) = Some pageIfd ->
  UTIF.decodeImage buffer pageIfd = Returned ifd ->
  let width := Viewer.resolve (UTIF.width ifd) (UTIF.t256 ifd) in
  let height := Viewer.resolve (UTIF.height ifd) (UTIF.t257 ifd) in
  Viewer.invalidDimensions width height = false ->
  UTIF.toRGBA8 ifd = Returned (Some bytes) ->
  to_length width * to_length height * 4 < Z.of_nat (List.length bytes) ->
  Viewer.canvasRef v = Some c ->
  Canvas.context2d c = true ->
  let r := Viewer.renderCurrentPage kind timeElapsed buffer v in
  Viewer.error (fst r) =
    Some (or_else (match kind with
                   | ImageDataConstructor => imageDataMessage
                   | CreateImageDataSet => setMessage
                   end) "Error rendering page")
  /\ snd r = None
  /\ Viewer.canvasRef (fst r) =
       Some {| Canvas.width := to_length width;
               Canvas.height := to_length height;
               Canvas.pixels := Canvas.blank (to_length width) (to_length height);
               Canvas.context2d := true |}
  /\ Viewer.loading (fst r) = false.
Proof.
  intros Hpage Hdecode width height Hdims Hrgba Hlen Hc Hctx r. subst r.
  unfold Viewer.renderCurrentPage, Viewer.tryBlock, Viewer.bind,
    Viewer.readPage, Viewer.writePage, Viewer.call, Viewer.getCanvas,
    Viewer.setCanvas, Viewer.throw, Viewer.ret.
  cbn [Viewer.pages Viewer.canvas Viewer.setLoading Viewer.currentPage
       Viewer.tiffPages Viewer.canvasRef].
  rewrite Hpage, Hdecode. cbn [Viewer.pages Viewer.canvas].
  fold width height. rewrite Hdims, Hrgba, Hc.
  cbn [Viewer.pages Viewer.canvas]. rewrite resized.
  cbn [Canvas.context2d]. rewrite Hctx.
  rewrite (proj2 (Z.ltb_ge _ _)) by lia.
  rewrite (makeImageData_long kind bytes _ _ Hlen).
  simpl. auto.
Qed.

Lemma surplus_pixel_data_fails_in_the_host_witness :
  let longPage := Sample.page (Some 1) (Some 1) UTIF.Absent UTIF.Absent
                    [x01; x02; x03; x04; x05] in
  let v := Sample.loaded [longPage] 0 Sample.canvas1x1 in
  let r := @Viewer.renderCurrentPage Sample.library Sample.host
             ImageDataConstructor "0.10" [x49; x49] v in
  Viewer.error (fst r)
  = Some "The input data length is not equal to (4 * width * height)."
  /\ snd r = None
  /\ Viewer.canvasRef (fst r) = Some (Sample.blankCanvas 1 1)
  /\ Viewer.loading (fst r) = false.
Proof.
  apply (surplus_pixel_data_fails_in_the_host Sample.library Sample.host
           ImageDataConstructor "0.10" [x49; x49]
           (Sample.loaded
              [Sample.page (Some 1) (Some 1) UTIF.Absent UTIF.Absent
                 [x01; x02; x03; x04; x05]] 0 Sample.canvas1x1)
           (Sample.page (Some 1) (Some 1) UTIF.Absent UTIF.Absent
              [x01; x02; x03; x04; x05])
           (Sample.page (Some 1) (Some 1) UTIF.Absent UTIF.Absent
              [x01; x02; x03; x04; x05])
           [x01; x02; x03; x04; x05] Sample.canvas1x1);
    reflexivity.
Defined.

(** X6.  The pixel data is only checked behind the 2D context.  When no
    canvas is mounted, or its [getContext('2d')] gives null, a render
    of a page with valid dimensions raises no error whatever [toRGBA8]
    returned — missing or short data included — and draws nothing; a
    mounted canvas has still been resized and cleared. *)
Theorem without_context_data_is_unchecked
    (library : UTIF.Library) (host : Host)
    kind timeElapsed buffer v pageIfd ifd rgbaData :
  nth_error (Viewer.tiffPages v) (Z.to_nat (Viewer.currentPage v)) = Some pageIfd ->
  UTIF.decodeImage buffer pageIfd = Returned ifd ->
  let width := Viewer.resolve (UTIF.width ifd) (UTIF.t256 ifd) in
  let height := Viewer.resolve (UTIF.height ifd) (UTIF.t257 ifd) in
  Viewer.invalidDimensions width height = false ->
  UTIF.toRGBA8 ifd = Returned rgbaData ->
  let r := Viewer.renderCurrentPage kind timeElapsed buffer v in
  (Viewer.canvasRef v = None ->
     Viewer.error (fst r) = Viewer.error v
     /\ snd r = None
     /\ Viewer.canvasRef (fst r) = None)
  /\ (forall c, Viewer.canvasRef v = Some c -> Canvas.context2d c = false ->
        Viewer.error (fst r) = Viewer.error v
        /\ snd r = None
        /\ Viewer.canvasRef (fst r) =
             Some {| Canvas.width := to_length width;
                     Canvas.height := to_length height;
                     Canvas.pixels :=
                       Canvas.blank (to_length width) (to_length height);
                     Canvas.context2d := false |}).
Proof.
  intros Hpage Hdecode width height Hdims Hrgba r. subst r.
  unfold Viewer.renderCurrentPage, Viewer.tryBlock, Viewer.bind,
    Viewer.readPage, Viewer.writePage, Viewer.call, Viewer.getCanvas,
    Viewer.setCanvas, Viewer.throw, Viewer.ret.
  cbn [Viewer.pages Viewer.canvas Viewer.setLoading Viewer.currentPage
       Viewer.tiffPages Viewer.canvasRef].
  rewrite Hpage, Hdecode. cbn [Viewer.pages Viewer.canvas].
  fold width height. rewrite Hdims, Hrgba.
  split.
  - intros Hc. rewrite Hc. simpl. auto.
  - intros c Hc Hctx. rewrite Hc.
    cbn [Viewer.pages Viewer.canvas]. rewrite resized.
    cbn [Canvas.context2d]. rewrite Hctx. simpl. auto.
Qed.

Lemma without_context_data_is_unchecked_witness :
  let c := {| Canvas.width := 1; Canvas.height := 1;
              Canvas.pixels := Sample.pixel; Canvas.context2d := false |} in
  let v := Sample.loaded [Sample.shortPage] 0 c in
  let r := @Viewer.renderCurrentPage Sample.library Sample.host
             ImageDataConstructor "0.10" [x49; x49] v in
  Viewer.error (fst r) = None /\ snd r = None.
Proof.
  destruct (without_context_data_is_unchecked Sample.library Sample.host
              ImageDataConstructor "0.10" [x49; x49]
              (Sample.loaded [Sample.shortPage] 0
                 {| Canvas.width := 1; Canvas.height := 1;
                    Canvas.pixels := Sample.pixel; Canvas.context2d := false |})
              Sample.shortPage Sample.shortPage (Some [x01; x02; x03])
              eq_refl eq_refl eq_refl eq_refl)
    as (_ & Hnull).
  destruct (Hnull _ eq_refl eq_refl) as (He & Hd & _).
  cbv zeta. split; [exact He|exact Hd].
Defined.

(** X7.  When [decodeImage] or, after valid dimensions, [toRGBA8]
    throws, the render ends with the thrown message in the error cell
    ("Error rendering page" when the message is empty), the loading
    flag cleared, nothing drawn and the canvas exactly as it was: both
    calls come before the canvas is touched. *)
Theorem library_failure_spares_canvas
    (library : UTIF.Library) (host : Host)
    kind timeElapsed buffer v pageIfd message :
  nth_error (Viewer.tiffPages v) (Z.to_nat (Viewer.currentPage v)) = Some pageIfd ->
  let r := Viewer.renderCurrentPage kind timeElapsed buffer v in
  (UTIF.decodeImage buffer pageIfd = Thrown message ->
     Viewer.error (fst r) = Some (or_else message "Error rendering page")
     /\ Viewer.canvasRef (fst r) = Viewer.canvasRef v
     /\ snd r = None /\ Viewer.loading (fst r) = false)
  /\ (forall ifd,
        UTIF.decodeImage buffer pageIfd = Returned ifd ->
        Viewer.invalidDimensions
          (Viewer.resolve (UTIF.width ifd) (UTIF.t256 ifd))
          (Viewer.resolve (UTIF.height ifd) (UTIF.t257 ifd)) = false ->
        UTIF.toRGBA8 ifd = Thrown message ->
        Viewer.error (fst r) = Some (or_else message "Error rendering page")
        /\ Viewer.canvasRef (fst r) = Viewer.canvasRef v
        /\ snd r = None /\ Viewer.loading (fst r) = false).
Proof.
  intros Hpage r. subst r.
  unfold Viewer.renderCurrentPage, Viewer.tryBlock, Viewer.bind,
    Viewer.readPage, Viewer.writePage, Viewer.call, Viewer.getCanvas,
    Viewer.setCanvas, Viewer.throw, Viewer.ret.
  cbn [Viewer.pages Viewer.canvas Viewer.setLoading Viewer.currentPage
       Viewer.tiffPages Viewer.canvasRef].
  rewrite Hpage. split.
  - intros Hdecode. rewrite Hdecode. simpl. auto.
  - intros ifd Hdecode Hdims Hrgba. rewrite Hdecode.
    cbn [Viewer.pages Viewer.canvas]. rewrite Hdims, Hrgba. simpl. auto.
Qed.

Lemma library_failure_spares_canvas_witness :
  let failing : UTIF.Library :=
    {| UTIF.decode := fun _ => Returned [Sample.goodPage];
       UTIF.decodeImage := fun _ _ => Thrown "Unknown compression";
       UTIF.toRGBA8 := fun _ => Returned None |} in
  let v := Sample.loaded [Sample.goodPage] 0 Sample.canvas1x1 in
  let r := @Viewer.renderCurrentPage failing Sample.host
             ImageDataConstructor "0.10" [x49; x49] v in
  Viewer.error (fst r) = Some "Unknown compression"
  /\ Viewer.canvasRef (fst r) = Some Sample.canvas1x1.
Proof.
  destruct (library_failure_spares_canvas
              {| UTIF.decode := fun _ => Returned [Sample.goodPage];
                 UTIF.decodeImage := fun _ _ => Thrown "Unknown compression";
                 UTIF.toRGBA8 := fun _ => Returned None |}
              Sample.host ImageDataConstructor "0.10" [x49; x49]
              (Sample.loaded [Sample.goodPage] 0 Sample.canvas1x1)
              Sample.goodPage "Unknown compression" eq_refl)
    as (Hdecode & _).
  destruct (Hdecode eq_refl) as (He & Hc & _).
  cbv zeta. split; [exact He|exact Hc].
Defined.

(** X8.  A render writes at most the current element of the page array:
    every other page descriptor is the one that was there before,
    whether the render succeeds or fails, and the array keeps its
    length. *)
Theorem render_touches_current_page_only
    (library : UTIF.Library) (host : Host)
    kind timeElapsed buffer v (j : nat) :
  j <> Z.to_nat (Viewer.currentPage v) ->
  let v' := fst (Viewer.renderCurrentPage kind timeElapsed buffer v) in
  nth_error (Viewer.tiffPages v') j = nth_error (Viewer.tiffPages v) j
  /\ List.length (Viewer.tiffPages v') = List.length (Viewer.tiffPages v).
Proof.
  intros Hj v'. subst v'. split.
  - rewrite renderCurrentPage_pages.
    destruct (tryBlock_pages kind buffer (Viewer.currentPage v)
                {| Viewer.pages := Viewer.tiffPages v;
                   Viewer.canvas := Viewer.canvasRef v |}) as [E|[ifd E]];
      rewrite E; simpl; [reflexivity|].
    apply nth_error_replaceNth_other. congruence.
  - apply renderCurrentPage_finally.
Qed.

Lemma render_touches_current_page_only_witness :
  let decoding : UTIF.Library :=
    {| UTIF.decode := fun _ => Returned [Sample.goodPage];
       UTIF.decodeImage := fun _ _ => Returned Sample.goodPage;
       UTIF.toRGBA8 := fun ifd => Returned (Some (UTIF.data ifd)) |} in
  let v := Sample.loaded [Sample.noHeightPage; Sample.shortPage] 0 Sample.canvas1x1 in
  let v' := fst (@Viewer.renderCurrentPage decoding Sample.host
                   ImageDataConstructor "0.10" [x49; x49] v) in
  nth_error (Viewer.tiffPages v') 0 = Some Sample.goodPage
  /\ nth_error (Viewer.tiffPages v') 1 = Some Sample.shortPage.
Proof.
  cbv zeta. split; [reflexivity|].
  apply (render_touches_current_page_only
           {| UTIF.decode := fun _ => Returned [Sample.goodPage];
              UTIF.decodeImage := fun _ _ => Returned Sample.goodPage;
              UTIF.toRGBA8 := fun ifd => Returned (Some (UTIF.data ifd)) |}
           Sample.host ImageDataConstructor "0.10" [x49; x49]
           (Sample.loaded [Sample.noHeightPage; Sample.shortPage] 0 Sample.canvas1x1)
           1%nat).
  discriminate.
Defined.

(** ** What the error cell shows *)

Section ErrorDisplay.

Context {library : UTIF.Library} {host : Host}.

Lemma mag_step_worded s e :
  worded (ImageViewMag.viewer s) ->
  worded (ImageViewMag.viewer (ImageViewMag.step s e)).
Proof.
  intros H. pose proof (mag_pointer_viewer s e) as Hp.
  destruct e; try (rewrite Hp; exact H);
    unfold ImageViewMag.step; rewrite mag_commit_viewer; simpl.
  - discriminate.
  - apply loadTiffSettle_worded, H.
  - apply renderEffect_worded, H.
  - unfold Viewer.goToNextPage. destruct (_ <? _); exact H.
  - unfold Viewer.goToPrevPage. destruct (_ >? _); exact H.
Qed.

Lemma ref_step_worded s e :
  worded (ImageViewRef.viewer s) ->
  worded (ImageViewRef.viewer (ImageViewRef.step s e)).
Proof.
  intros H. destruct e; simpl; try exact H.
  - discriminate.
  - apply loadTiffSettle_worded, H.
  - rewrite ref_renderEffect_viewer. apply renderEffect_worded, H.
  - unfold Viewer.goToNextPage. destruct (_ <? _); exact H.
  - unfold Viewer.goToPrevPage. destruct (_ >? _); exact H.
  - unfold ImageViewRef.handleRectangleClick. destruct (_ <? _)%nat; exact H.
Qed.

Lemma mag_run_worded events : forall s,
  worded (ImageViewMag.viewer s) ->
  worded (ImageViewMag.viewer (ImageViewMag.run events s)).
Proof.
  induction events as [|e events IH]; intros s H; [exact H|].
  simpl. apply IH, mag_step_worded, H.
Qed.

Lemma ref_run_worded events : forall s,
  worded (ImageViewRef.viewer s) ->
  worded (ImageViewRef.viewer (ImageViewRef.run events s)).
Proof.
  induction events as [|e events IH]; intros s H; [exact H|].
  simpl. apply IH, ref_step_worded, H.
Qed.

Lemma mag_step_truthy s e :
  e <> ImageViewMag.LoadBegin ->
  truthy (Viewer.error (ImageViewMag.viewer s)) = true ->
  truthy (Viewer.error (ImageViewMag.viewer (ImageViewMag.step s e))) = true.
Proof.
  intros Hne H. pose proof (mag_pointer_viewer s e) as Hp.
  destruct e; try (rewrite Hp; exact H); try congruence;
    unfold ImageViewMag.step; rewrite mag_commit_viewer; simpl.
  - apply loadTiffSettle_truthy, H.
  - apply renderEffect_truthy, H.
  - unfold Viewer.goToNextPage. destruct (_ <? _); exact H.
  - unfold Viewer.goToPrevPage. destruct (_ >? _); exact H.
Qed.

Lemma ref_step_truthy s e :
  e <> ImageViewRef.LoadBegin ->
  truthy (Viewer.error (ImageViewRef.viewer s)) = true ->
  truthy (Viewer.error (ImageViewRef.viewer (ImageViewRef.step s e))) = true.
Proof.
  intros Hne H. destruct e; try congruence; simpl; try exact H.
  - apply loadTiffSettle_truthy, H.
  - rewrite ref_renderEffect_viewer. apply renderEffect_truthy, H.
  - unfold Viewer.goToNextPage. destruct (_ <? _); exact H.
  - unfold Viewer.goToPrevPage. destruct (_ >? _); exact H.
  - unfold ImageViewRef.handleRectangleClick. destruct (_ <? _)%nat; exact H.
Qed.

Lemma mag_run_truthy events : forall s,
  Forall (fun e => e <> ImageViewMag.LoadBegin) events ->
  truthy (Viewer.error (ImageViewMag.viewer s)) = true ->
  truthy (Viewer.error (ImageViewMag.viewer (ImageViewMag.run events s))) = true.
Proof.
  induction events as [|e events IH]; intros s Hall H; [exact H|].
  inversion Hall; subst. simpl. apply IH; [assumption|].
  apply mag_step_truthy; assumption.
Qed.

Lemma ref_run_truthy events : forall s,
  Forall (fun e => e <> ImageViewRef.LoadBegin) events ->
  truthy (Viewer.error (ImageViewRef.viewer s)) = true ->
  truthy (Viewer.error (ImageViewRef.viewer (ImageViewRef.run events s))) = true.
Proof.
  induction events as [|e events IH]; intros s Hall H; [exact H|].
  inversion Hall; subst. simpl. apply IH; [assumption|].
  apply ref_step_truthy; assumption.
Qed.

End ErrorDisplay.

(** X9.  The error cell never holds the empty string: in every state
    either component reaches from its initial state it is null or a
    non-empty message, because every thrown message goes through
    [message || fallback].  So the error line of the JSX is shown
    exactly when the cell is not null. *)
Theorem error_message_never_empty :
  (forall (library : UTIF.Library) (host : Host) events,
      let v := ImageViewMag.viewer (ImageViewMag.run events ImageViewMag.initial) in
      Viewer.error v <> Some ""
      /\ (truthy (Viewer.error v) = true <-> Viewer.error v <> None))
  /\ (forall (library : UTIF.Library) (host : Host) events,
         let v := ImageViewRef.viewer (ImageViewRef.run events ImageViewRef.initial) in
         Viewer.error v <> Some ""
         /\ (truthy (Viewer.error v) = true <-> Viewer.error v <> None)).
Proof.
  split; intros library host events v; subst v.
  - assert (H : worded (ImageViewMag.viewer
                          (ImageViewMag.run events ImageViewMag.initial))).
    { apply mag_run_worded. discriminate. }
    split; [exact H|]. apply truthy_worded, H.
  - assert (H : worded (ImageViewRef.viewer
                          (ImageViewRef.run events ImageViewRef.initial))).
    { apply ref_run_worded. discriminate. }
    split; [exact H|]. apply truthy_worded, H.
Qed.

(** X10.  The canvas is displayed only while not loading and without an
    error.  So once an error message is set, the canvas stays hidden —
    and in ImageViewRef the region overlay stays unrendered — through
    every later event other than the beginning of a load, renders that
    succeed included. *)
Theorem canvas_hidden_after_failure :
  (forall (library : UTIF.Library) (host : Host) events s,
      Forall (fun e => e <> ImageViewMag.LoadBegin) events ->
      truthy (Viewer.error (ImageViewMag.viewer s)) = true ->
      Viewer.canvasDisplayed (ImageViewMag.viewer (ImageViewMag.run events s))
      = false)
  /\ (forall (library : UTIF.Library) (host : Host) events s,
         Forall (fun e => e <> ImageViewRef.LoadBegin) events ->
         truthy (Viewer.error (ImageViewRef.viewer s)) = true ->
         let s' := ImageViewRef.run events s in
         Viewer.canvasDisplayed (ImageViewRef.viewer s') = false
         /\ ImageViewRef.overlayShown s' = false).
Proof.
  split.
  - intros library host events s Hall H.
    unfold Viewer.canvasDisplayed.
    rewrite (mag_run_truthy events s Hall H), orb_true_r. reflexivity.
  - intros library host events s Hall H s'. subst s'.
    unfold Viewer.canvasDisplayed, ImageViewRef.overlayShown.
    rewrite (ref_run_truthy events s Hall H), orb_true_r.
    simpl. rewrite andb_false_r. auto.
Qed.

Lemma canvas_hidden_after_failure_witness :
  let pages := [Sample.shortPage; Sample.goodPage] in
  let s := ImageViewMag.withViewer
             (fun _ => Sample.loaded pages 0 Sample.canvas1x1)
             ImageViewMag.initial in
  let failed := @ImageViewMag.run Sample.library Sample.host
                  [ImageViewMag.RenderEffect "0.10"] s in
  let later := @ImageViewMag.run Sample.library Sample.host
                 [ImageViewMag.NextPage; ImageViewMag.RenderEffect "0.20"] failed in
  Viewer.canvasDisplayed (ImageViewMag.viewer s) = true
  /\ option_map Canvas.pixels (Viewer.canvasRef (ImageViewMag.viewer later))
     = Some Sample.pixel
  /\ Viewer.canvasDisplayed (ImageViewMag.viewer later) = false.
Proof.
  cbv zeta. split; [reflexivity|]. split; [reflexivity|].
  destruct canvas_hidden_after_failure as (Hmag & _).
  apply (Hmag Sample.library Sample.host).
  - repeat constructor; discriminate.
  - reflexivity.
Defined.

(** ** Navigation *)

Section NavigationFacts.

Import Viewer.

Lemma iter_next_page (n : nat) : forall v,
  0 <= currentPage v < totalPages v ->
  currentPage (Nat.iter n goToNextPage v)
  = Z.min (currentPage v + Z.of_nat n) (totalPages v - 1)
  /\ samePageAside v (Nat.iter n goToNextPage v).
Proof.
  induction n as [|n IH]; intros v Hv.
  - simpl. split; [lia|]. unfold samePageAside. auto 10.
  - destruct (IH v Hv) as (Hc & Hs). rewrite Nat2Z.inj_succ.
    change (Nat.iter (S n) goToNextPage v)
      with (goToNextPage (Nat.iter n goToNextPage v)).
    set (w := Nat.iter n goToNextPage v) in *.
    unfold samePageAside in *.
    destruct Hs as (H1 & H2 & H3 & H4 & H5 & H6 & H7).
    unfold goToNextPage. rewrite Hc, H4.
    destruct (Z.ltb_spec (Z.min (currentPage v + Z.of_nat n) (totalPages v - 1))
                (totalPages v - 1)); simpl; rewrite ?Hc; split; auto 10; lia.
Qed.

Lemma iter_prev_page (n : nat) : forall v,
  0 <= currentPage v ->
  currentPage (Nat.iter n goToPrevPage v)
  = Z.max (currentPage v - Z.of_nat n) 0
  /\ samePageAside v (Nat.iter n goToPrevPage v).
Proof.
  induction n as [|n IH]; intros v Hv.
  - simpl. split; [lia|]. unfold samePageAside. auto 10.
  - destruct (IH v Hv) as (Hc & Hs). rewrite Nat2Z.inj_succ.
    change (Nat.iter (S n) goToPrevPage v)
      with (goToPrevPage (Nat.iter n goToPrevPage v)).
    set (w := Nat.iter n goToPrevPage v) in *.
    unfold samePageAside in *.
    destruct Hs as (H1 & H2 & H3 & H4 & H5 & H6 & H7).
    unfold goToPrevPage. rewrite Hc.
    destruct (Z.gtb_spec (Z.max (currentPage v - Z.of_nat n) 0) 0);
      simpl; rewrite ?Hc; split; auto 10; lia.
Qed.

End NavigationFacts.

(** X11.  Next and previous undo each other away from the ends: from a
    valid index below the last page, next then previous gives back the
    very same state, and from a valid index above the first page so
    does previous then next. *)
Theorem next_and_previous_cancel (v : Viewer.t) :
  0 <= Viewer.currentPage v < Viewer.totalPages v ->
  (Viewer.currentPage v < Viewer.totalPages v - 1 ->
     Viewer.goToPrevPage (Viewer.goToNextPage v) = v)
  /\ (Viewer.currentPage v > 0 ->
        Viewer.goToNextPage (Viewer.goToPrevPage v) = v).
Proof.
  intros Hv. destruct v as [l e r c t d p cv]. simpl in Hv.
  unfold Viewer.goToPrevPage, Viewer.goToNextPage. simpl. split; intros H.
  - rewrite (proj2 (Z.ltb_lt _ _) H). simpl.
    destruct (Z.gtb_spec (c + 1) 0); [|lia].
    unfold Viewer.setCurrentPage. simpl. f_equal. lia.
  - destruct (Z.gtb_spec c 0); [|lia]. simpl.
    rewrite (proj2 (Z.ltb_lt (c - 1) (t - 1))) by lia.
    unfold Viewer.setCurrentPage. simpl. f_equal. lia.
Qed.

Lemma next_and_previous_cancel_witness :
  let v := Sample.loaded [Sample.goodPage; Sample.shortPage; Sample.goodPage] 1
             Sample.canvas1x1 in
  Viewer.goToPrevPage (Viewer.goToNextPage v) = v
  /\ Viewer.goToNextPage (Viewer.goToPrevPage v) = v.
Proof.
  destruct (next_and_previous_cancel
              (Sample.loaded [Sample.goodPage; Sample.shortPage; Sample.goodPage] 1
                 Sample.canvas1x1)) as (Hnp & Hpn).
  - simpl. lia.
  - cbv zeta. split; [apply Hnp|apply Hpn]; simpl; lia.
Defined.

(** X12.  Repeated navigation saturates at the ends: from a valid
    index, [n] times next leaves the index at
    [min (index + n) (totalPages - 1)] and [n] times previous at
    [max (index - n) 0]; no other cell changes. *)
Theorem repeated_navigation_saturates (v : Viewer.t) (n : nat) :
  0 <= Viewer.currentPage v < Viewer.totalPages v ->
  (Viewer.currentPage (Nat.iter n Viewer.goToNextPage v)
   = Z.min (Viewer.currentPage v + Z.of_nat n) (Viewer.totalPages v - 1)
   /\ samePageAside v (Nat.iter n Viewer.goToNextPage v))
  /\ (Viewer.currentPage (Nat.iter n Viewer.goToPrevPage v)
      = Z.max (Viewer.currentPage v - Z.of_nat n) 0
      /\ samePageAside v (Nat.iter n Viewer.goToPrevPage v)).
Proof.
  intros Hv. split.
  - apply iter_next_page, Hv.
  - apply iter_prev_page. lia.
Qed.

Lemma repeated_navigation_saturates_witness :
  let v := Sample.loaded [Sample.goodPage; Sample.shortPage; Sample.goodPage] 1
             Sample.canvas1x1 in
  Viewer.currentPage (Nat.iter 5 Viewer.goToNextPage v) = 2
  /\ Viewer.currentPage (Nat.iter 5 Viewer.goToPrevPage v) = 0.
Proof.
  destruct (repeated_navigation_saturates
              (Sample.loaded [Sample.goodPage; Sample.shortPage; Sample.goodPage] 1
                 Sample.canvas1x1) 5) as ((Hn & _) & (Hp & _)).
  - simpl. lia.
  - cbv zeta. split; [exact Hn|exact Hp].
Defined.

(** X13.  The page buttons and their handlers agree.  In a state with a
    valid index whose page count is the length of the page array: a
    Next button that is not disabled moves one page forward and a
    Previous button that is not disabled one page back; when a button
    is disabled although nothing is loading, its handler would change
    nothing; and when the buttons are not rendered at all (a single
    page) neither handler changes anything. *)
Theorem page_buttons_match_handlers (v : Viewer.t) :
  consistent v ->
  0 <= Viewer.currentPage v < Viewer.totalPages v ->
  (Viewer.nextDisabled v = false ->
     Viewer.currentPage (Viewer.goToNextPage v) = Viewer.currentPage v + 1)
  /\ (Viewer.prevDisabled v = false ->
        Viewer.currentPage (Viewer.goToPrevPage v) = Viewer.currentPage v - 1)
  /\ (Viewer.loading v = false -> Viewer.nextDisabled v = true ->
        Viewer.goToNextPage v = v)
  /\ (Viewer.loading v = false -> Viewer.prevDisabled v = true ->
        Viewer.goToPrevPage v = v)
  /\ (Viewer.navigationShown v = false ->
        Viewer.goToNextPage v = v /\ Viewer.goToPrevPage v = v).
Proof.
  unfold consistent, Viewer.nextDisabled, Viewer.prevDisabled,
    Viewer.navigationShown, Viewer.goToNextPage, Viewer.goToPrevPage.
  intros Hc Hv. rewrite <- Hc.
  destruct (Z.ltb_spec (Viewer.currentPage v) (Viewer.totalPages v - 1));
    destruct (Z.gtb_spec (Viewer.currentPage v) 0);
    destruct (Z.eqb_spec (Viewer.currentPage v) (Viewer.totalPages v - 1));
    destruct (Z.eqb_spec (Viewer.currentPage v) 0);
    destruct (Z.gtb_spec (Viewer.totalPages v) 1);
    destruct (Viewer.loading v); simpl;
    repeat split; intros; try reflexivity; try discriminate; try lia.
Qed.

Lemma page_buttons_match_handlers_witness :
  let v := Sample.loaded [Sample.goodPage; Sample.shortPage] 1 Sample.canvas1x1 in
  Viewer.nextDisabled v = true
  /\ Viewer.goToNextPage v = v
  /\ Viewer.currentPage (Viewer.goToPrevPage v) = 0.
Proof.
  destruct (page_buttons_match_handlers
              (Sample.loaded [Sample.goodPage; Sample.shortPage] 1 Sample.canvas1x1))
    as (_ & Hprev & Hnext & _).
  - reflexivity.
  - simpl. lia.
  - cbv zeta. split; [reflexivity|]. split.
    + apply Hnext; reflexivity.
    + apply Hprev. reflexivity.
Defined.

(** ** Zoom *)

Section ZoomSteps.

Local Open Scope Q_scope.

Ltac divide_out := unfold Qdiv in *; cbn [Qinv Qnum Qden] in *.

Lemma zoomIn_compat a b : a == b -> Zoom.zoomIn a == Zoom.zoomIn b.
Proof. intros E. unfold Zoom.zoomIn. rewrite E. reflexivity. Qed.

Lemma zoomOut_compat a b : a == b -> Zoom.zoomOut a == Zoom.zoomOut b.
Proof. intros E. unfold Zoom.zoomOut. rewrite E. reflexivity. Qed.

Lemma inject_succ (n : nat) :
  inject_Z (Z.of_nat (S n)) == inject_Z (Z.of_nat n) + 1.
Proof.
  rewrite Nat2Z.inj_succ. unfold Z.succ. rewrite inject_Z_plus. reflexivity.
Qed.

Lemma iter_zoomIn (n : nat) (z : Q) :
  z <= 5 ->
  Nat.iter n Zoom.zoomIn z == Qmin (z + inject_Z (Z.of_nat n) * 0.25) 5.
Proof.
  intros Hz. induction n as [|n IH].
  - simpl Nat.iter. change (inject_Z (Z.of_nat 0)) with 0.
    rewrite Q.min_l by lra. lra.
  - change (Nat.iter (S n) Zoom.zoomIn z)
      with (Zoom.zoomIn (Nat.iter n Zoom.zoomIn z)).
    rewrite (zoomIn_compat _ _ IH). unfold Zoom.zoomIn.
    pose proof (inject_succ n) as Hs.
    set (a := inject_Z (Z.of_nat n)) in *.
    set (b := inject_Z (Z.of_nat (S n))) in *.
    destruct (Q.min_spec (z + a * 0.25) 5) as [[H1 E1]|[H1 E1]]; rewrite E1;
      destruct (Q.min_spec (z + b * 0.25) 5) as [[H2 E2]|[H2 E2]]; rewrite E2.
    + rewrite Q.min_l by lra. lra.
    + rewrite Q.min_r by lra. reflexivity.
    + lra.
    + rewrite Q.min_r by lra. reflexivity.
Qed.

Lemma iter_zoomOut (n : nat) (z : Q) :
  0.25 <= z ->
  Nat.iter n Zoom.zoomOut z == Qmax (z - inject_Z (Z.of_nat n) * 0.25) 0.25.
Proof.
  intros Hz. induction n as [|n IH].
  - simpl Nat.iter. change (inject_Z (Z.of_nat 0)) with 0.
    rewrite Q.max_l by lra. lra.
  - change (Nat.iter (S n) Zoom.zoomOut z)
      with (Zoom.zoomOut (Nat.iter n Zoom.zoomOut z)).
    rewrite (zoomOut_compat _ _ IH). unfold Zoom.zoomOut.
    pose proof (inject_succ n) as Hs.
    set (a := inject_Z (Z.of_nat n)) in *.
    set (b := inject_Z (Z.of_nat (S n))) in *.
    destruct (Q.max_spec (z - a * 0.25) 0.25) as [[H1 E1]|[H1 E1]]; rewrite E1;
      destruct (Q.max_spec (z - b * 0.25) 0.25) as [[H2 E2]|[H2 E2]]; rewrite E2.
    + rewrite Q.max_r by lra. reflexivity.
    + lra.
    + rewrite Q.max_r by lra. reflexivity.
    + rewrite Q.max_l by lra. lra.
Qed.

(** A level of whole quarters below 5 is at most 4.75, and one above
    0.25 is at least 0.5. *)
Lemma quarters_gap z :
  quarters z -> (z < 5 -> z + 0.25 <= 5) /\ (0.25 < z -> 0.25 <= z - 0.25).
Proof.
  intros (k & Hk & E). split; intros H; rewrite E in *; divide_out.
  - assert (Hlt : inject_Z k < inject_Z 20)
      by (change (inject_Z 20) with 20; lra).
    rewrite <- Zlt_Qlt in Hlt.
    assert (Hle : inject_Z k <= inject_Z 19) by (rewrite <- Zle_Qle; lia).
    change (inject_Z 19) with 19 in Hle. lra.
  - assert (Hlt : inject_Z 1 < inject_Z k)
      by (change (inject_Z 1) with 1; lra).
    rewrite <- Zlt_Qlt in Hlt.
    assert (Hle : inject_Z 2 <= inject_Z k) by (rewrite <- Zle_Qle; lia).
    change (inject_Z 2) with 2 in Hle. lra.
Qed.

Lemma ref_run_quarters {library : UTIF.Library} {host : Host} events :
  forall s,
    quarters (ImageViewRef.zoomLevel s) ->
    quarters (ImageViewRef.zoomLevel (ImageViewRef.run events s)).
Proof.
  induction events as [|e events IH]; intros s Hs; [exact Hs|].
  simpl. apply IH. rewrite ref_step_zoomLevel.
  destruct e; try exact Hs.
  - exact (zoom_apply_quarters (ImageViewRef.zoomLevel s) Zoom.ZoomIn Hs).
  - exact (zoom_apply_quarters (ImageViewRef.zoomLevel s) Zoom.ZoomOut Hs).
  - exact (zoom_apply_quarters (ImageViewRef.zoomLevel s) Zoom.Reset Hs).
Qed.

End ZoomSteps.

(** X14.  Zooming in and out undo each other away from the bounds: for
    a level between 0.25 and 4.75, zoomOut after zoomIn gives the level
    back, and for a level between 0.5 and 5 so does zoomIn after
    zoomOut.  At the bounds they do not: zoomOut after zoomIn at 5
    gives 4.75, and zoomIn after zoomOut at 0.25 gives 0.5. *)
Theorem zoom_in_and_out_cancel :
  (forall z, 0.25 <= z <= 4.75 -> Zoom.zoomOut (Zoom.zoomIn z) == z)%Q
  /\ (forall z, 0.5 <= z <= 5 -> Zoom.zoomIn (Zoom.zoomOut z) == z)%Q
  /\ (Zoom.zoomOut (Zoom.zoomIn 5) == 4.75)%Q
  /\ (Zoom.zoomIn (Zoom.zoomOut 0.25) == 0.5)%Q.
Proof.
  split; [|split; [|split]].
  - intros z [Hlo Hhi]. rewrite (zoomOut_compat _ (z + 0.25)%Q).
    + unfold Zoom.zoomOut. rewrite Q.max_l by lra. lra.
    + unfold Zoom.zoomIn. apply Q.min_l. lra.
  - intros z [Hlo Hhi]. rewrite (zoomIn_compat _ (z - 0.25)%Q).
    + unfold Zoom.zoomIn. rewrite Q.min_l by lra. lra.
    + unfold Zoom.zoomOut. apply Q.max_l. lra.
  - reflexivity.
  - reflexivity.
Qed.

Lemma zoom_in_and_out_cancel_witness :
  (Zoom.zoomOut (Zoom.zoomIn 1) == 1 /\ Zoom.zoomIn (Zoom.zoomOut 5) == 5)%Q.
Proof.
  destruct zoom_in_and_out_cancel as (Hio & Hoi & _).
  split; [apply Hio|apply Hoi]; split; discriminate.
Defined.

(** X15.  Repeated zooming saturates at the bounds: from a level of at
    most 5, [n] times zoomIn gives [min (level + n * 0.25) 5], and from
    a level of at least 0.25, [n] times zoomOut gives
    [max (level - n * 0.25) 0.25]. *)
Theorem repeated_zoom_saturates (n : nat) (z : Q) :
  ((z <= 5 ->
    Nat.iter n Zoom.zoomIn z == Qmin (z + inject_Z (Z.of_nat n) * 0.25) 5)
   /\ (0.25 <= z ->
       Nat.iter n Zoom.zoomOut z == Qmax (z - inject_Z (Z.of_nat n) * 0.25) 0.25))%Q.
Proof.
  split; [apply iter_zoomIn|apply iter_zoomOut].
Qed.

Lemma repeated_zoom_saturates_witness :
  (Nat.iter 3 Zoom.zoomIn 1 == 1.75 /\ Nat.iter 30 Zoom.zoomOut 1 == 0.25)%Q.
Proof.
  destruct (repeated_zoom_saturates 3 1) as (Hin & _).
  destruct (repeated_zoom_saturates 30 1) as (_ & Hout).
  split.
  - rewrite Hin; [reflexivity|discriminate].
  - rewrite Hout; [reflexivity|discriminate].
Defined.

(** X16.  The zoom buttons of ImageViewRef and their handlers agree in
    every state reached from the initial one: a Zoom In button that is
    not disabled raises the level by exactly 0.25 and a Zoom Out button
    that is not disabled lowers it by exactly 0.25, without clamping;
    when a zoom button or the reset button is disabled although nothing
    is loading, its handler would leave the level as it is. *)
Theorem zoom_buttons_match_handlers
    (library : UTIF.Library) (host : Host) events :
  let s := ImageViewRef.run events ImageViewRef.initial in
  let level := ImageViewRef.zoomLevel in
  ((ImageViewRef.zoomInDisabled s = false ->
      level (ImageViewRef.step s ImageViewRef.ZoomIn) == level s + 0.25)
   /\ (ImageViewRef.zoomOutDisabled s = false ->
       level (ImageViewRef.step s ImageViewRef.ZoomOut) == level s - 0.25)
   /\ (Viewer.loading (ImageViewRef.viewer s) = false ->
       (ImageViewRef.zoomInDisabled s = true ->
          level (ImageViewRef.step s ImageViewRef.ZoomIn) == level s)
       /\ (ImageViewRef.zoomOutDisabled s = true ->
           level (ImageViewRef.step s ImageViewRef.ZoomOut) == level s)
       /\ (ImageViewRef.resetDisabled s = true ->
           level (ImageViewRef.step s ImageViewRef.ResetZoom) == level s)))%Q.
Proof.
  intros s level. subst level.
  assert (Hq : quarters (ImageViewRef.zoomLevel s)).
  { apply ref_run_quarters. exists 4. split; [lia|reflexivity]. }
  assert (Hr : (0.25 <= ImageViewRef.zoomLevel s <= 5)%Q).
  { apply ref_run_zoom_range. simpl. unfold Zoom.initial. lra. }
  destruct (quarters_gap _ Hq) as (Hup & Hdown).
  unfold ImageViewRef.zoomInDisabled, ImageViewRef.zoomOutDisabled,
    ImageViewRef.resetDisabled.
  simpl ImageViewRef.step. cbn [ImageViewRef.zoomLevel ImageViewRef.setZoomLevel].
  set (z := ImageViewRef.zoomLevel s) in *.
  split; [|split].
  - intros H. apply orb_false_iff in H as [_ H].
    unfold Zoom.zoomIn. apply Q.min_l. apply Hup.
    apply Qnot_le_lt. intros Hle. apply Qle_bool_iff in Hle. congruence.
  - intros H. apply orb_false_iff in H as [_ H].
    unfold Zoom.zoomOut. apply Q.max_l. apply Hdown.
    apply Qnot_le_lt. intros Hle. apply Qle_bool_iff in Hle. congruence.
  - intros Hl. rewrite Hl. simpl. split; [|split]; intros H.
    + apply Qle_bool_iff in H. unfold Zoom.zoomIn.
      rewrite Q.min_r by lra. lra.
    + apply Qle_bool_iff in H. unfold Zoom.zoomOut.
      rewrite Q.max_r by lra. lra.
    + apply Qeq_bool_iff in H. unfold Zoom.resetZoom. rewrite H. reflexivity.
Qed.

Lemma zoom_buttons_match_handlers_witness :
  let s := @ImageViewRef.run Sample.library Sample.host
             [ImageViewRef.LoadSettle (Viewer.Response false (Returned []));
              ImageViewRef.ZoomOut; ImageViewRef.ZoomOut; ImageViewRef.ZoomOut]
             ImageViewRef.initial in
  (ImageViewRef.zoomLevel s == 0.25
   /\ ImageViewRef.zoomLevel (@ImageViewRef.step Sample.library Sample.host
                                s ImageViewRef.ZoomOut) == ImageViewRef.zoomLevel s
   /\ ImageViewRef.zoomLevel (@ImageViewRef.step Sample.library Sample.host
                                s ImageViewRef.ZoomIn) == ImageViewRef.zoomLevel s + 0.25)%Q.
Proof.
  destruct (zoom_buttons_match_handlers Sample.library Sample.host
              [ImageViewRef.LoadSettle (Viewer.Response false (Returned []));
               ImageViewRef.ZoomOut; ImageViewRef.ZoomOut; ImageViewRef.ZoomOut])
    as (Hin & _ & Hoff).
  destruct (Hoff eq_refl) as (_ & Hout & _).
  cbv zeta. split; [reflexivity|]. split.
  - apply Hout. reflexivity.
  - apply Hin. reflexivity.
Defined.

(** ** The loupe *)

Section LoupeContent.

Import ImageViewMag.
Local Open Scope Q_scope.

Ltac divide_out := unfold Qdiv in *; cbn [Qinv Qnum Qden] in *.

(** One clamped coordinate: centred on the pointer away from the edges,
    stuck to the edge near it. *)
Lemma clamp_cases (p : Q) (size : Z) :
  (50 <= size)%Z ->
  let start := Qmax 0 (Qmin (p - sourceDim / 2) (inject_Z size - sourceDim)) in
  (25 <= p <= inject_Z size - 25 -> start == p - 25)
  /\ (p <= 25 -> start == 0)
  /\ (inject_Z size - 25 <= p -> start == inject_Z size - 50).
Proof.
  intros Hsize. rewrite Zle_Qle in Hsize. change (inject_Z 50) with 50 in Hsize.
  unfold sourceDim. cbv zeta.
  destruct (Q.max_spec 0 (Qmin (p - 50 / 2) (inject_Z size - 50)))
    as [[Hm E]|[Hm E]]; rewrite E;
    destruct (Q.min_spec (p - 50 / 2) (inject_Z size - 50))
      as [[Hn E']|[Hn E']]; rewrite ?E' in *; divide_out;
    (split; [|split]); intros H; lra.
Qed.

Lemma gridSteps_aligned (limit : Z) : Forall (gridAligned limit) (gridSteps limit).
Proof.
  unfold gridSteps. apply Forall_forall. intros i Hi.
  apply in_map_iff in Hi as (k & <- & Hk). apply in_seq in Hk.
  destruct (Z.ltb_spec limit 0) as [Hneg|Hpos]; [simpl in Hk; lia|].
  exists (Z.of_nat k). split; [lia|]. split; [|reflexivity].
  unfold zoomFactor in *.
  assert (Hdiv : (0 <= limit / 4)%Z) by (apply Z.div_pos; lia).
  assert (Hmul : (4 * (limit / 4) <= limit)%Z) by (apply Z.mul_div_le; lia).
  lia.
Qed.

Lemma gridSteps_complete (limit k : Z) :
  (0 <= k)%Z -> (k * 4 <= limit)%Z ->
  In (inject_Z (k * zoomFactor)) (gridSteps limit).
Proof.
  intros Hk Hle. unfold gridSteps. apply in_map_iff.
  exists (Z.to_nat k). split; [rewrite Z2Nat.id by exact Hk; reflexivity|].
  apply in_seq. destruct (Z.ltb_spec limit 0); [lia|].
  unfold zoomFactor.
  assert (Hdiv : (k <= limit / 4)%Z) by (apply Z.div_le_lower_bound; lia).
  lia.
Qed.

Lemma gridSteps_length (limit : Z) :
  (0 <= limit)%Z ->
  List.length (gridSteps limit) = S (Z.to_nat (limit / zoomFactor)).
Proof.
  intros H. unfold gridSteps. rewrite length_map, length_seq.
  destruct (Z.ltb_spec limit 0); [lia|reflexivity].
Qed.

Lemma gridAligned_range limit i :
  gridAligned limit i -> 0 <= i <= inject_Z limit.
Proof.
  intros (k & Hk & Hle & ->). unfold zoomFactor in *.
  split.
  - change 0 with (inject_Z 0). rewrite <- Zle_Qle. lia.
  - rewrite <- Zle_Qle. exact Hle.
Qed.

End LoupeContent.

(** X17.  On a surface at least 50 pixels wide and high, the source
    rectangle of the magnifier is centred on the pointer when the
    pointer is at least 25 pixels from the edges, and otherwise sticks
    to the edge the pointer is near: it starts at 0 near the left or
    top edge and ends at the width or height near the right or bottom
    edge. *)
Theorem magnifier_source_follows_pointer (x y : Q) (w h : Z) :
  50 <= w -> 50 <= h ->
  let sx := fst (fst (fst (ImageViewMag.sourceRegion x y w h))) in
  let sy := snd (fst (fst (ImageViewMag.sourceRegion x y w h))) in
  ((25 <= x <= inject_Z w - 25 -> sx == x - 25)
   /\ (x <= 25 -> sx == 0)
   /\ (inject_Z w - 25 <= x -> sx + 50 == inject_Z w)
   /\ (25 <= y <= inject_Z h - 25 -> sy == y - 25)
   /\ (y <= 25 -> sy == 0)
   /\ (inject_Z h - 25 <= y -> sy + 50 == inject_Z h))%Q.
Proof.
  intros Hw Hh sx sy. subst sx sy. unfold ImageViewMag.sourceRegion.
  cbn [fst snd].
  destruct (clamp_cases x w Hw) as (Hx1 & Hx2 & Hx3).
  destruct (clamp_cases y h Hh) as (Hy1 & Hy2 & Hy3).
  cbv zeta in *.
  repeat split; intros H;
    try (apply Hx1, H); try (apply Hx2, H); try (apply Hy1, H);
    try (apply Hy2, H).
  - rewrite (Hx3 H). ring.
  - rewrite (Hy3 H). ring.
Qed.

Lemma magnifier_source_follows_pointer_witness :
  (fst (fst (fst (ImageViewMag.sourceRegion 100 3 256 64))) == 75
   /\ snd (fst (fst (ImageViewMag.sourceRegion 100 3 256 64))) == 0)%Q.
Proof.
  destruct (magnifier_source_follows_pointer 100 3 256 64)
    as (Hx & _ & _ & _ & Hy & _); try lia.
  split.
  - rewrite Hx; [reflexivity|]. split; discriminate.
  - apply Hy. discriminate.
Defined.

(** X18.  What the loupe shows depends on the last pointer position
    only: [updateMagnifier] clears the loupe before it paints, so after
    two calls the state is the one the second call alone would give,
    and the same holds for two pointer moves in a row.  In particular a
    repeated identical pointer position changes nothing. *)
Theorem last_pointer_move_wins :
  (forall x y x' y' s,
      ImageViewMag.updateMagnifier x y (ImageViewMag.updateMagnifier x' y' s)
      = ImageViewMag.updateMagnifier x y s)
  /\ (forall e e' s,
         ImageViewMag.handleMouseMove e (ImageViewMag.handleMouseMove e' s)
         = ImageViewMag.handleMouseMove e s).
Proof.
  assert (Hupdate : forall x y x' y' s,
      ImageViewMag.updateMagnifier x y (ImageViewMag.updateMagnifier x' y' s)
      = ImageViewMag.updateMagnifier x y s).
  { intros x y x' y' s. unfold ImageViewMag.updateMagnifier.
    destruct (Viewer.canvasRef (ImageViewMag.viewer s)) as [main|] eqn:Hc;
      destruct (ImageViewMag.loupeCanvasRef s) as [l|] eqn:Hl;
      rewrite ?Hc, ?Hl; try reflexivity.
    destruct (Canvas.context2d main && Loupe.context2d l) eqn:Hctx;
      cbn [ImageViewMag.setLoupe ImageViewMag.viewer ImageViewMag.loupeCanvasRef];
      rewrite ?Hc, ?Hl; cbn [Loupe.paint Loupe.context2d]; rewrite ?Hctx;
      reflexivity. }
  split; [exact Hupdate|].
  intros e e' s. unfold ImageViewMag.handleMouseMove.
  destruct (Viewer.canvasRef (ImageViewMag.viewer s)) as [main|] eqn:Hc;
    destruct (ImageViewMag.loupeCanvasRef s) as [l|] eqn:Hl;
    rewrite ?Hc, ?Hl; try reflexivity.
  destruct (ImageViewMag.zoomActive s) eqn:Hz; rewrite ?Hc, ?Hl, ?Hz;
    [|reflexivity].
  unfold ImageViewMag.updateMagnifier.
  cbn [ImageViewMag.setMousePos ImageViewMag.viewer ImageViewMag.loupeCanvasRef].
  rewrite Hc, Hl.
  destruct (Canvas.context2d main && Loupe.context2d l) eqn:Hctx;
    cbn [ImageViewMag.setLoupe ImageViewMag.setMousePos ImageViewMag.viewer
         ImageViewMag.loupeCanvasRef ImageViewMag.zoomActive];
    rewrite ?Hc, ?Hl, ?Hz; cbn [Loupe.paint Loupe.context2d];
    rewrite ?Hctx; reflexivity.
Qed.

(** X19.  What [updateMagnifier] paints on a loupe canvas.  The list of
    commands is the copied image, filling the canvas exactly, then the
    grid, then the two crosshair lines through the middle.  The grid
    consists of exactly the horizontal lines at the heights [k * 4]
    between 0 and the canvas height, each across the whole width, and
    the vertical lines at [k * 4] between 0 and the canvas width, each
    over the whole height: every one of them is painted and no other
    grid line is.  Every command stays on the canvas. *)
Theorem loupe_paint_stays_on_canvas
    (x y : Q) (main : Canvas.t) (l : Loupe.t) :
  0 <= Loupe.width l -> 0 <= Loupe.height l ->
  let commands := ImageViewMag.loupeCommands x y main l in
  (exists sx sy grid,
      commands
      = (Loupe.DrawImage sx sy ImageViewMag.sourceDim ImageViewMag.sourceDim
           0 0 (inject_Z (Loupe.width l)) (inject_Z (Loupe.height l))
         :: grid ++ crosshairLines l)%list
      /\ (forall c, In c grid <->
            (exists k, 0 <= k /\ k * 4 <= Loupe.height l
                       /\ c = horizontalGridLine l k)
            \/ (exists k, 0 <= k /\ k * 4 <= Loupe.width l
                          /\ c = verticalGridLine l k))
      /\ List.length grid
         = (S (Z.to_nat (Loupe.height l / 4)) + S (Z.to_nat (Loupe.width l / 4)))%nat)
  /\ Forall (onLoupe (inject_Z (Loupe.width l)) (inject_Z (Loupe.height l)))
            commands.
Proof.
  intros Hw Hh commands. subst commands.
  pose proof (gridSteps_aligned (Loupe.height l)) as Gh.
  pose proof (gridSteps_aligned (Loupe.width l)) as Gw.
  assert (Hwq : (0 <= inject_Z (Loupe.width l))%Q)
    by (change 0%Q with (inject_Z 0); rewrite <- Zle_Qle; exact Hw).
  assert (Hhq : (0 <= inject_Z (Loupe.height l))%Q)
    by (change 0%Q with (inject_Z 0); rewrite <- Zle_Qle; exact Hh).
  unfold ImageViewMag.loupeCommands, ImageViewMag.sourceRegion.
  split.
  - eexists _, _, _. split; [|split].
    + rewrite app_assoc. reflexivity.
    + intros c. rewrite in_app_iff, !in_map_iff. split.
      * intros [(i & <- & Hi)|(i & <- & Hi)].
        -- left. rewrite Forall_forall in Gh.
           destruct (Gh i Hi) as (k & Hk & Hle & ->).
           exists k. unfold ImageViewMag.zoomFactor in Hle. auto.
        -- right. rewrite Forall_forall in Gw.
           destruct (Gw i Hi) as (k & Hk & Hle & ->).
           exists k. unfold ImageViewMag.zoomFactor in Hle. auto.
      * intros [(k & Hk & Hle & ->)|(k & Hk & Hle & ->)].
        -- left. exists (inject_Z (k * ImageViewMag.zoomFactor)).
           split; [reflexivity|]. apply gridSteps_complete; assumption.
        -- right. exists (inject_Z (k * ImageViewMag.zoomFactor)).
           split; [reflexivity|]. apply gridSteps_complete; assumption.
    + rewrite length_app, !length_map, !gridSteps_length by assumption.
      reflexivity.
  - constructor; [simpl; repeat split; reflexivity|].
    apply Forall_app. split; [|apply Forall_app; split].
    + apply Forall_map. eapply Forall_impl; [|exact Gh].
      intros i Hi. apply gridAligned_range in Hi. simpl. lra.
    + apply Forall_map. eapply Forall_impl; [|exact Gw].
      intros i Hi. apply gridAligned_range in Hi. simpl. lra.
    + repeat constructor; simpl; unfold Qdiv; cbn [Qinv Qnum Qden]; lra.
Qed.

Lemma loupe_paint_stays_on_canvas_witness :
  In (horizontalGridLine Loupe.mounted 50)
     (ImageViewMag.loupeCommands 10 10 (Sample.blankCanvas 64 64) Loupe.mounted)
  /\ ~ In (horizontalGridLine Loupe.mounted 51)
          (ImageViewMag.loupeCommands 10 10 (Sample.blankCanvas 64 64)
             Loupe.mounted).
Proof.
  destruct (loupe_paint_stays_on_canvas 10 10 (Sample.blankCanvas 64 64)
              Loupe.mounted) as ((sx & sy & grid & E & Hgrid & _) & _).
  - simpl. lia.
  - simpl. lia.
  - cbv zeta in E. rewrite E. split.
    + right. apply in_or_app. left. apply Hgrid. left. exists 50.
      simpl. repeat split; lia.
    + intros [H|H]; [discriminate|].
      apply in_app_or in H as [H|H].
      * apply Hgrid in H as [(k & Hk & Hle & Hc)|(k & Hk & Hle & Hc)].
        -- simpl in Hle. unfold horizontalGridLine in Hc.
           injection Hc as Hc. unfold ImageViewMag.zoomFactor in Hc. lia.
        -- discriminate.
      * simpl in H. destruct H as [H|[H|[]]]; discriminate.
Defined.

(** ** The loupe's state machine *)

Section LoupeStates.

Context {library : UTIF.Library} {host : Host}.

Import ImageViewMag.

Lemma coherent_sized s l :
  loupeCoherent s -> loupeCanvasRef s = Some l -> loupeSized l.
Proof.
  intros (_ & Hhidden & Hshown) Hl.
  destruct (loupeVisible s) eqn:Hv.
  - destruct (Hshown eq_refl) as (l' & Hl' & Hsize).
    rewrite Hl in Hl'. inversion Hl'; subst. exact Hsize.
  - rewrite (Hhidden eq_refl) in Hl. discriminate.
Qed.

Lemma commit_coherent t :
  (showMagnifier t = true -> zoomActive t = true) ->
  (forall l, loupeCanvasRef t = Some l -> loupeSized l) ->
  loupeCoherent (commit t).
Proof.
  intros Ha Hb. unfold commit, loupeCoherent.
  destruct (loupeVisible t) eqn:Hv.
  - destruct (loupeCanvasRef t) as [l|] eqn:Hl.
    + split; [exact Ha|]. split; [rewrite Hv; discriminate|].
      intros _. exists l. split; [exact Hl|]. apply Hb. reflexivity.
    + unfold loupeVisible in *. simpl. split; [exact Ha|].
      split; [congruence|]. intros _. exists Loupe.mounted.
      repeat split.
  - unfold loupeVisible in *. simpl. split; [exact Ha|].
    split; [reflexivity|]. congruence.
Qed.

Lemma handleMouseMove_cells e s :
  showMagnifier (handleMouseMove e s) = showMagnifier s
  /\ zoomActive (handleMouseMove e s) = zoomActive s
  /\ (loupeCanvasRef (handleMouseMove e s) = loupeCanvasRef s
      \/ exists l commands,
           loupeCanvasRef s = Some l
           /\ loupeCanvasRef (handleMouseMove e s)
              = Some (Loupe.paint l commands)).
Proof.
  unfold handleMouseMove, updateMagnifier.
  destruct (Viewer.canvasRef (viewer s)) as [main|] eqn:Hc;
    destruct (loupeCanvasRef s) as [l|] eqn:Hl; auto.
  destruct (zoomActive s) eqn:Hz; [|rewrite Hl; auto].
  cbn [setMousePos viewer loupeCanvasRef]. rewrite Hc, Hl.
  destruct (Canvas.context2d main && Loupe.context2d l); simpl;
    rewrite ?Hl; eauto 10.
Qed.

Lemma mag_step_coherent s e : loupeCoherent s -> loupeCoherent (step s e).
Proof.
  intros H. pose proof (coherent_sized s) as Hsized.
  destruct H as (Ha & Hhidden & Hshown).
  assert (Hb : forall l, loupeCanvasRef s = Some l -> loupeSized l).
  { intros l Hl. apply Hsized; [|exact Hl]. repeat split; assumption. }
  clear Hsized Hhidden Hshown.
  unfold step. apply commit_coherent;
    destruct e; cbn [handle withViewer renderEffect showMagnifier zoomActive
                     loupeCanvasRef handleMouseLeave setShowMagnifier];
    try assumption; try discriminate.
  - unfold handleMouseEnter. destruct (zoomActive s) eqn:Hz; simpl.
    + intros _. exact Hz.
    + intros Hs. specialize (Ha Hs). discriminate.
  - destruct (handleMouseMove_cells e s) as (Hs & Hz & _). rewrite Hs, Hz.
    exact Ha.
  - unfold toggleZoom. destruct (zoomActive s) eqn:Hz; simpl.
    + discriminate.
    + reflexivity.
  - unfold handleMouseEnter. destruct (zoomActive s); simpl; exact Hb.
  - destruct (handleMouseMove_cells e s) as (_ & _ & [Hl|(l & c & Hl & Hl')]).
    + rewrite Hl. exact Hb.
    + rewrite Hl'. intros l' E. inversion E; subst.
      destruct (Hb l Hl) as (Hw & Hh & Hx). repeat split; assumption.
  - unfold toggleZoom. destruct (zoomActive s); simpl; exact Hb.
Qed.

Lemma mag_run_coherent events : forall s,
  loupeCoherent s -> loupeCoherent (run events s).
Proof.
  induction events as [|e events IH]; intros s H; [exact H|].
  simpl. apply IH, mag_step_coherent, H.
Qed.

(** Switched on but not asked for: pointer moves change nothing. *)
Lemma mag_run_moves_idle moves : forall s,
  Forall (fun e => exists m, e = MouseMove m) moves ->
  zoomActive s = true -> showMagnifier s = false -> loupeCanvasRef s = None ->
  let s' := run moves s in
  zoomActive s' = true /\ showMagnifier s' = false
  /\ loupeCanvasRef s' = None /\ mousePos s' = mousePos s
  /\ viewer s' = viewer s.
Proof.
  induction moves as [|e moves IH]; intros s Hall Hz Hs Hl; [simpl; auto|].
  inversion Hall as [|? ? (m & ->) Hall']; subst.
  assert (Hmove : handleMouseMove m s = s).
  { unfold handleMouseMove. rewrite Hl.
    destruct (Viewer.canvasRef (viewer s)); reflexivity. }
  assert (Hstep : zoomActive (step s (MouseMove m)) = true
                  /\ showMagnifier (step s (MouseMove m)) = false
                  /\ loupeCanvasRef (step s (MouseMove m)) = None
                  /\ mousePos (step s (MouseMove m)) = mousePos s
                  /\ viewer (step s (MouseMove m)) = viewer s).
  { unfold step. cbn [handle]. rewrite Hmove. unfold commit, loupeVisible.
    rewrite Hs. simpl. auto. }
  destruct Hstep as (Hz' & Hs' & Hl' & Hp' & Hv').
  destruct (IH _ Hall' Hz' Hs' Hl') as (H1 & H2 & H3 & H4 & H5).
  simpl. rewrite <- Hp', <- Hv'. auto.
Qed.

End LoupeStates.

(** X20.  In every state ImageViewMag reaches from its initial state the
    loupe's cells agree: [showMagnifier] is true only while the
    magnifier is switched on, and the loupe canvas is mounted — 200 by
    200, with a context — exactly while the loupe is rendered, so a
    pointer move is accepted exactly while the loupe is showing. *)
Theorem loupe_cells_stay_coherent
    (library : UTIF.Library) (host : Host) events :
  let s := ImageViewMag.run events ImageViewMag.initial in
  (ImageViewMag.showMagnifier s = true -> ImageViewMag.zoomActive s = true)
  /\ (ImageViewMag.loupeVisible s = false -> ImageViewMag.loupeCanvasRef s = None)
  /\ (ImageViewMag.loupeVisible s = true ->
      exists l, ImageViewMag.loupeCanvasRef s = Some l
                /\ Loupe.width l = 200 /\ Loupe.height l = 200
                /\ Loupe.context2d l = true).
Proof.
  apply (mag_run_coherent events ImageViewMag.initial).
  unfold loupeCoherent. simpl. repeat split; try discriminate.
Qed.

Lemma loupe_cells_stay_coherent_witness :
  let s := @ImageViewMag.run Sample.library Sample.host
             [ImageViewMag.ToggleZoom; ImageViewMag.MouseEnter;
              ImageViewMag.MouseMove (Sample.pointerAt 120 40 300)]
             ImageViewMag.initial in
  ImageViewMag.loupeVisible s = true
  /\ exists l, ImageViewMag.loupeCanvasRef s = Some l /\ Loupe.width l = 200.
Proof.
  destruct (loupe_cells_stay_coherent Sample.library Sample.host
              [ImageViewMag.ToggleZoom; ImageViewMag.MouseEnter;
               ImageViewMag.MouseMove (Sample.pointerAt 120 40 300)])
    as (_ & _ & Hshown).
  cbv zeta. split; [reflexivity|].
  destruct (Hshown eq_refl) as (l & Hl & Hw & _).
  exists l. split; [exact Hl|exact Hw].
Defined.

(** X21.  Switching the magnifier on does not show the loupe.  From a
    coherent state with the magnifier off, the toggle leaves
    [showMagnifier] false, and pointer moves alone — however many —
    change nothing: the loupe stays unmounted and its position is not
    updated.  The loupe is mounted by the next pointer entry. *)
Theorem switching_on_waits_for_pointer_entry
    (library : UTIF.Library) (host : Host) (s : ImageViewMag.t) moves :
  loupeCoherent s ->
  ImageViewMag.zoomActive s = false ->
  Forall (fun e => exists m, e = ImageViewMag.MouseMove m) moves ->
  let on := ImageViewMag.step s ImageViewMag.ToggleZoom in
  let moved := ImageViewMag.run moves on in
  let entered := ImageViewMag.step moved ImageViewMag.MouseEnter in
  (ImageViewMag.zoomActive on = true /\ ImageViewMag.showMagnifier on = false)
  /\ (ImageViewMag.zoomActive moved = true
      /\ ImageViewMag.showMagnifier moved = false
      /\ ImageViewMag.loupeCanvasRef moved = None
      /\ ImageViewMag.mousePos moved = ImageViewMag.mousePos s)
  /\ (ImageViewMag.loupeVisible entered = true
      /\ ImageViewMag.loupeCanvasRef entered = Some Loupe.mounted).
Proof.
  intros (Ha & Hhidden & _) Hz Hall on moved entered.
  assert (Hs : ImageViewMag.showMagnifier s = false).
  { destruct (ImageViewMag.showMagnifier s); [|reflexivity].
    specialize (Ha eq_refl). congruence. }
  assert (Hon : ImageViewMag.zoomActive on = true
                /\ ImageViewMag.showMagnifier on = false
                /\ ImageViewMag.loupeCanvasRef on = None
                /\ ImageViewMag.mousePos on = ImageViewMag.mousePos s).
  { subst on. unfold ImageViewMag.step, ImageViewMag.handle,
      ImageViewMag.toggleZoom, ImageViewMag.commit, ImageViewMag.loupeVisible.
    rewrite Hz. simpl. rewrite Hs. simpl. auto. }
  destruct Hon as (Hz1 & Hs1 & Hl1 & Hp1).
  destruct (mag_run_moves_idle moves on Hall Hz1 Hs1 Hl1)
    as (Hz2 & Hs2 & Hl2 & Hp2 & _).
  fold moved in Hz2, Hs2, Hl2, Hp2.
  split; [auto|]. split; [rewrite Hp2, Hp1; auto|].
  subst entered. unfold ImageViewMag.step, ImageViewMag.handle,
    ImageViewMag.handleMouseEnter, ImageViewMag.commit, ImageViewMag.loupeVisible.
  rewrite Hz2. simpl. rewrite Hz2, Hl2. simpl. rewrite Hz2. auto.
Qed.

Lemma switching_on_waits_for_pointer_entry_witness :
  let s := ImageViewMag.withViewer
             (fun _ => Sample.loaded [Sample.goodPage] 0 (Sample.blankCanvas 256 64))
             ImageViewMag.initial in
  let on := @ImageViewMag.step Sample.library Sample.host s ImageViewMag.ToggleZoom in
  let moved := @ImageViewMag.run Sample.library Sample.host
                 [ImageViewMag.MouseMove (Sample.pointerAt 120 40 256);
                  ImageViewMag.MouseMove (Sample.pointerAt 121 41 256)] on in
  ImageViewMag.zoomActive moved = true
  /\ ImageViewMag.showMagnifier moved = false
  /\ ImageViewMag.loupeCanvasRef moved = None.
Proof.
  destruct (switching_on_waits_for_pointer_entry Sample.library Sample.host
              (ImageViewMag.withViewer
                 (fun _ => Sample.loaded [Sample.goodPage] 0 (Sample.blankCanvas 256 64))
                 ImageViewMag.initial)
              [ImageViewMag.MouseMove (Sample.pointerAt 120 40 256);
               ImageViewMag.MouseMove (Sample.pointerAt 121 41 256)])
    as (_ & (Hz & Hs & Hl & _) & _).
  - unfold loupeCoherent. simpl. repeat split; try discriminate.
  - reflexivity.
  - repeat constructor; eexists; reflexivity.
  - cbv zeta. auto.
Defined.

(** X22.  In every state ImageViewRef reaches from its initial state, a
    click on the region at position [i] of the list moves the focus to
    the input of the same position and changes nothing else; a click
    with an index beyond the four input refs changes nothing at all. *)
Theorem region_click_focuses_its_field
    (library : UTIF.Library) (host : Host) events (i : nat) :
  let s := ImageViewRef.run events ImageViewRef.initial in
  let s' := ImageViewRef.step s (ImageViewRef.RectangleClick i) in
  (forall r, nth_error (ImageViewRef.rectangleCoordinates s) i = Some r ->
             ImageViewRef.focusedInput s' = Some i)
  /\ (nth_error (ImageViewRef.rectangleCoordinates s) i = None -> s' = s)
  /\ ImageViewRef.viewer s' = ImageViewRef.viewer s
  /\ ImageViewRef.zoomLevel s' = ImageViewRef.zoomLevel s
  /\ ImageViewRef.canvasDimensions s' = ImageViewRef.canvasDimensions s
  /\ ImageViewRef.rectangleCoordinates s' = ImageViewRef.rectangleCoordinates s.
Proof.
  intros s s'. subst s'. 
  assert (Hr : ImageViewRef.rectangleCoordinates s
               = ImageViewRef.rectangleCoordinates ImageViewRef.initial)
    by apply ref_run_rectangles.
  rewrite Hr. simpl ImageViewRef.step.
  unfold ImageViewRef.handleRectangleClick, ImageViewRef.inputRefs.
  destruct (Nat.ltb_spec i 4) as [Hi|Hi].
  - simpl. repeat split; try reflexivity; try exact Hr.
    intros Hnone. apply nth_error_None in Hnone. simpl in Hnone. lia.
  - repeat split; try reflexivity; try exact Hr.
    intros r Hsome.
    assert (Hlt : (i < 4)%nat).
    { change 4%nat with (List.length (ImageViewRef.rectangleCoordinates
                                        ImageViewRef.initial)).
      apply nth_error_Some. congruence. }
    lia.
Qed.

Lemma region_click_focuses_its_field_witness :
  let s := @ImageViewRef.run Sample.library Sample.host
             [ImageViewRef.ZoomIn; ImageViewRef.RectangleClick 0]
             ImageViewRef.initial in
  ImageViewRef.focusedInput
    (@ImageViewRef.step Sample.library Sample.host s
       (ImageViewRef.RectangleClick 2)) = Some 2%nat.
Proof.
  destruct (region_click_focuses_its_field Sample.library Sample.host
              [ImageViewRef.ZoomIn; ImageViewRef.RectangleClick 0] 2)
    as (Hfocus & _).
  cbv zeta. eapply Hfocus. reflexivity.
Defined.

(** ** The overlay of ImageViewRef *)

Section OverlaySize.

Context {library : UTIF.Library} {host : Host}.

Import Viewer.

(** Whenever a render reports a size as drawn, the canvas has that
    size. *)
Lemma renderCurrentPage_drawn kind timeElapsed buffer v w h :
  snd (renderCurrentPage kind timeElapsed buffer v) = Some (w, h) ->
  exists c, canvasRef (fst (renderCurrentPage kind timeElapsed buffer v)) = Some c
            /\ Canvas.width c = w /\ Canvas.height c = h.
Proof.
  unfold renderCurrentPage, tryBlock, bind, readPage, writePage, call,
    throw, ret, getCanvas, setCanvas.
  cbn [pages canvas setLoading currentPage tiffPages canvasRef].
  repeat match goal with
         | |- context [match ?x with _ => _ end] =>
             lazymatch x with
             | context [match _ with _ => _ end] => fail
             | _ => destruct x eqn:?
             end
         end;
    cbn [fst snd pages canvas]; intros E; try discriminate.
  inversion E; subst. simpl. eexists. split; [reflexivity|]. split; reflexivity.
Qed.

Lemma renderEffect_drawn kind timeElapsed v w h :
  snd (renderEffect kind timeElapsed v) = Some (w, h) ->
  exists c, canvasRef (fst (renderEffect kind timeElapsed v)) = Some c
            /\ Canvas.width c = w /\ Canvas.height c = h.
Proof.
  unfold renderEffect.
  destruct (tiffData v) as [buffer|]; [|discriminate].
  destruct (renderGuard v); [discriminate|].
  apply renderCurrentPage_drawn.
Qed.

End OverlaySize.

(** X23.  The overlay size of ImageViewRef is only ever set to the size
    of the canvas: when a render effect draws, [canvasDimensions]
    becomes the width and height the canvas has after that render, and
    when it does not draw — guard closed, or any failure —
    [canvasDimensions] keeps its value. *)
Theorem overlay_size_follows_canvas
    (library : UTIF.Library) (host : Host) timeElapsed (s : ImageViewRef.t) :
  let s' := ImageViewRef.renderEffect timeElapsed s in
  let drawn := snd (Viewer.renderEffect CreateImageDataSet timeElapsed
                      (ImageViewRef.viewer s)) in
  (forall w h, drawn = Some (w, h) ->
     ImageViewRef.canvasDimensions s' = (w, h)
     /\ exists c, Viewer.canvasRef (ImageViewRef.viewer s') = Some c
                  /\ Canvas.width c = w /\ Canvas.height c = h)
  /\ (drawn = None ->
      ImageViewRef.canvasDimensions s' = ImageViewRef.canvasDimensions s).
Proof.
  intros s' drawn. subst s' drawn.
  pose proof (renderEffect_drawn CreateImageDataSet timeElapsed
                (ImageViewRef.viewer s)) as Hdrawn.
  rewrite ref_renderEffect_viewer.
  unfold ImageViewRef.renderEffect.
  destruct (Viewer.renderEffect CreateImageDataSet timeElapsed
              (ImageViewRef.viewer s)) as [v d].
  cbn [fst snd ImageViewRef.canvasDimensions] in *. split.
  - intros w h ->. split; [reflexivity|]. apply Hdrawn. reflexivity.
  - intros ->. reflexivity.
Qed.

Lemma overlay_size_follows_canvas_witness :
  let s := ImageViewRef.withViewer
             (fun _ => Sample.loaded [Sample.goodPage] 0 (Sample.blankCanvas 2 2))
             ImageViewRef.initial in
  ImageViewRef.canvasDimensions
    (@ImageViewRef.renderEffect Sample.library Sample.host "0.10" s) = (1, 1).
Proof.
  destruct (overlay_size_follows_canvas Sample.library Sample.host "0.10"
              (ImageViewRef.withViewer
                 (fun _ => Sample.loaded [Sample.goodPage] 0 (Sample.blankCanvas 2 2))
                 ImageViewRef.initial)) as (Hdrawn & _).
  cbv zeta. apply (Hdrawn 1 1). reflexivity.
Defined.
